(** * Error registry of pleme-error-boundary

    A shallow embedding of the error store of the library:
    - [src/types.ts]                      (module [Types]),
    - [src/machines/error.machine.ts]     (module [ErrorMachine]),
    - [src/context/ErrorToastProvider.tsx] (module [ErrorToastProvider]),
    - [src/context/ErrorContext.tsx]      (module [ErrorContext], the legacy
      plain-state store),
    - the request factories, the toasts, the GraphQL listener and the toast
      configuration (modules [ErrorFactories], [Toasts], [ApolloBridge],
      [ToastConfiguration]),
    - [src/components/ErrorBoundary.tsx], [src/radix/ErrorFallback.tsx] and
      [src/radix/ErrorBoundary.tsx] (modules [ErrorBoundary],
      [ErrorFallback], [RadixErrorBoundary]),
    followed by the properties of the registry and of these components.

    Numbers are integers ([Z]); a JavaScript string is a [string]; an
    optional property is an [option].  The readings of [Date.now()] and of
    [Math.random()] are inputs of the transitions, and the calls of
    [console.error] are their output. *)

From Stdlib Require Import String Ascii.
From Stdlib Require Import ZArith List Bool Lia Sorted.
From Stdlib Require Import DecimalString DecimalZ.
Import ListNotations.

Local Open Scope string_scope.
Local Open Scope list_scope.
Local Open Scope Z_scope.

(** ** The JavaScript built-ins the store relies on *)

Module JS.

(** [Array.prototype.slice(start)] with one integer argument: a negative
    [start] counts from the end, and both ends saturate. [-0] is [0]. *)
Definition Array_slice {A : Type} (start : Z) (l : list A) : list A :=
  let len := Z.of_nat (length l) in
  let k := if start <? 0 then Z.max (len + start) 0 else Z.min start len in
  skipn (Z.to_nat k) l.

(** [Array.prototype.filter] and [Array.prototype.some] are [filter] and
    [existsb]. *)

Definition toUpperCase_char (c : ascii) : ascii :=
  let n := nat_of_ascii c in
  if (Nat.leb 97 n && Nat.leb n 122)%bool then ascii_of_nat (n - 32) else c.

(** [String.prototype.toUpperCase], on the ASCII letters. *)
Fixpoint toUpperCase (s : string) : string :=
  match s with
  | EmptyString => EmptyString
  | String c s' => String (toUpperCase_char c) (toUpperCase s')
  end.

(** The decimal rendering of an integer inside a template literal. *)
Definition Number_toString (z : Z) : string :=
  NilZero.string_of_int (Z.to_int z).

(** Truthiness of an optional string: [undefined] and [''] are falsy. *)
Definition truthy (s : option string) : bool :=
  match s with
  | Some (String _ _) => true
  | _ => false
  end.

Definition newline : string := String (ascii_of_nat 10) EmptyString.

(** [s.includes(c)] for a single character. *)
Fixpoint includes_char (c : ascii) (s : string) : bool :=
  match s with
  | EmptyString => false
  | String a s' => (Ascii.eqb a c || includes_char c s')%bool
  end.

(** What a call returns: a value, or a thrown [Error] with its message. *)
Inductive Completion (A : Type) : Type :=
| Return (a : A)
| Throw (message : string).
Arguments Return {A} a.
Arguments Throw {A} message.

(** A value of type [A | null | undefined]. *)
Inductive Nullable (A : Type) : Type :=
| Null
| Undefined
| Object (a : A).
Arguments Null {A}.
Arguments Undefined {A}.
Arguments Object {A} a.

End JS.

(** ** [src/types.ts] *)

Module Types.

Inductive ErrorType : Type :=
| network | validation | cart | checkout | general | auth.

Definition ErrorType_eqb (a b : ErrorType) : bool :=
  match a, b with
  | network, network | validation, validation | cart, cart
  | checkout, checkout | general, general | auth, auth => true
  | _, _ => false
  end.

(** The string a value of [ErrorType] is at run time. *)
Definition ErrorType_string (t : ErrorType) : string :=
  match t with
  | network => "network"
  | validation => "validation"
  | cart => "cart"
  | checkout => "checkout"
  | general => "general"
  | auth => "auth"
  end.

(** [Record<string, unknown>]: the store never looks inside, it only
    hands the object to [JSON.stringify]. The object is kept by
    reference. *)
Definition ContextRecord : Type := nat.

(** [action?: { label: string; handler: () => void }]; the callback is
    opaque and kept by reference. *)
Record Action : Type := mkAction { label : string; handler : nat }.

(** [CreateErrorInput = Omit<AppError, 'id' | 'timestamp'>]. *)
Record CreateErrorInput : Type := mkInput {
  type : ErrorType;
  message : string;
  details : option string;
  stack : option string;
  recoverable : option bool;
  code : option string;
  context : option ContextRecord;
  action : option Action
}.

(** [AppError]: the fields of the input together with the two generated
    ones, as the store builds it:
    [{ ...input, id: ..., timestamp: ... }]. *)
Record AppError : Type := mkAppError {
  id : string;
  timestamp : Z;
  input : CreateErrorInput
}.

(** The data fields of [ErrorContextValue]; its function fields are the
    commands modelled below. *)
Record ErrorContextValue : Type := mkValue {
  value_error : option AppError;
  value_errors : list AppError;
  value_globalError : option AppError;
  value_isOnline : bool
}.

End Types.

(** One call of [console.error]: the list of its arguments. *)
Definition LogEntry : Type := list string.

(** The readings an [ADD_ERROR] takes from its environment. The state
    machine reads the clock twice: once in [generateErrorId], once for
    [timestamp]. [Math_random] is the outcome of
    [Math.random().toString(36).substr(2, 9)]. *)
Record Readings : Type := mkReadings {
  Date_now_id : Z;
  Math_random : string;
  Date_now_timestamp : Z
}.

(** ** [src/machines/error.machine.ts] *)

Module ErrorMachine.
Import Types.

Record ErrorMachineContext : Type := mkContext {
  errors : list AppError;
  globalError : option AppError;
  isOnline : bool;
  maxErrors : Z
}.

Inductive ErrorMachineEvent : Type :=
| ADD_ERROR (payload : CreateErrorInput)
| REMOVE_ERROR (payload : string)
| CLEAR_ERRORS
| SET_GLOBAL_ERROR (payload : option AppError)
| SET_ONLINE_STATUS (payload : bool)
| SET_MAX_ERRORS (payload : Z).

Definition generateErrorId (now : Z) (random : string) : string :=
  ("error_" ++ JS.Number_toString now ++ "_" ++ random)%string.

Section Machine.
(** [JSON.stringify(_, null, 2)] on the context object. *)
Variable JSON_stringify : ContextRecord -> string.

Definition logErrorToConsole (error : AppError) : LogEntry :=
  [ ("[" ++ JS.toUpperCase (ErrorType_string (type (input error))) ++ "] "
         ++ message (input error))%string;
    if JS.truthy (details (input error))
    then (JS.newline ++ "Details: "
          ++ match details (input error) with Some d => d | None => "" end)%string
    else "";
    match context (input error) with
    | Some c => (JS.newline ++ "Context: " ++ JSON_stringify c)%string
    | None => ""
    end;
    if JS.truthy (stack (input error))
    then (JS.newline ++ "Stack: "
          ++ match stack (input error) with Some s => s | None => "" end)%string
    else "" ].

(** The initial context; [navigator_onLine] is [None] where
    [navigator] is undefined. *)
Definition initialContext (navigator_onLine : option bool)
  : ErrorMachineContext :=
  {| errors := [];
     globalError := None;
     isOnline := match navigator_onLine with Some b => b | None => true end;
     maxErrors := 50 |}.

Definition newError (payload : CreateErrorInput) (r : Readings) : AppError :=
  {| id := generateErrorId (Date_now_id r) (Math_random r);
     timestamp := Date_now_timestamp r;
     input := payload |}.

(** The transition of the single state [active]: the new context and
    what was written to the console. *)
Definition transition (ctx : ErrorMachineContext) (event : ErrorMachineEvent)
    (r : Readings) : ErrorMachineContext * list LogEntry :=
  match event with
  | ADD_ERROR payload =>
      let e := newError payload r in
      let updated := errors ctx ++ [e] in
      ({| errors := JS.Array_slice (- maxErrors ctx) updated;
          globalError := globalError ctx;
          isOnline := isOnline ctx;
          maxErrors := maxErrors ctx |},
       [logErrorToConsole e])
  | REMOVE_ERROR payload =>
      ({| errors :=
            filter (fun error => negb (String.eqb (id error) payload))
                   (errors ctx);
          globalError := globalError ctx;
          isOnline := isOnline ctx;
          maxErrors := maxErrors ctx |},
       [])
  | CLEAR_ERRORS =>
      ({| errors := [];
          globalError := globalError ctx;
          isOnline := isOnline ctx;
          maxErrors := maxErrors ctx |},
       [])
  | SET_GLOBAL_ERROR payload =>
      ({| errors := errors ctx;
          globalError := payload;
          isOnline := isOnline ctx;
          maxErrors := maxErrors ctx |},
       match payload with
       | Some e => [logErrorToConsole e]
       | None => []
       end)
  | SET_ONLINE_STATUS payload =>
      ({| errors := errors ctx;
          globalError := globalError ctx;
          isOnline := payload;
          maxErrors := maxErrors ctx |},
       [])
  | SET_MAX_ERRORS payload =>
      ({| errors := errors ctx;
          globalError := globalError ctx;
          isOnline := isOnline ctx;
          maxErrors := payload |},
       [])
  end.

(** The contexts after each event of a sequence, in order. *)
Fixpoint trace (ctx : ErrorMachineContext)
    (events : list (ErrorMachineEvent * Readings))
  : list ErrorMachineContext :=
  match events with
  | [] => []
  | (event, r) :: rest =>
      let ctx' := fst (transition ctx event r) in
      ctx' :: trace ctx' rest
  end.

(** The context after all the events of a sequence, and the console. *)
Fixpoint run (ctx : ErrorMachineContext)
    (events : list (ErrorMachineEvent * Readings))
  : ErrorMachineContext * list LogEntry :=
  match events with
  | [] => (ctx, [])
  | (event, r) :: rest =>
      let (ctx', out) := transition ctx event r in
      let (ctx'', out') := run ctx' rest in
      (ctx'', out ++ out')
  end.
End Machine.

(** Selectors (on the context of a defined state). *)
Definition getErrors (ctx : ErrorMachineContext) : list AppError := errors ctx.
Definition getGlobalError (ctx : ErrorMachineContext) : option AppError :=
  globalError ctx.
Definition getIsOnline (ctx : ErrorMachineContext) : bool := isOnline ctx.
Definition getLatestError (ctx : ErrorMachineContext) : option AppError :=
  last (map Some (getErrors ctx)) None.

(** [len(records) <= capacity]. *)
Definition within_capacity (ctx : ErrorMachineContext) : bool :=
  Z.of_nat (length (errors ctx)) <=? maxErrors ctx.

(** An event that is not a [SET_MAX_ERRORS] below 1 or below the number
    of records held at that moment. *)
Definition keeps_bound (ctx : ErrorMachineContext) (event : ErrorMachineEvent)
  : bool :=
  match event with
  | SET_MAX_ERRORS n => (1 <=? n) && (Z.of_nat (length (errors ctx)) <=? n)
  | _ => true
  end.

Fixpoint all_keep_bound (JSON_stringify : ContextRecord -> string)
    (ctx : ErrorMachineContext)
    (events : list (ErrorMachineEvent * Readings)) : bool :=
  match events with
  | [] => true
  | (event, r) :: rest =>
      keeps_bound ctx event
      && all_keep_bound JSON_stringify
           (fst (transition JSON_stringify ctx event r)) rest
  end.

(** The [(clock, random)] pairs from which the [ADD_ERROR] events of a
    sequence make their ids. *)
Fixpoint draws (events : list (ErrorMachineEvent * Readings))
  : list (Z * string) :=
  match events with
  | [] => []
  | (ADD_ERROR _, r) :: rest => (Date_now_id r, Math_random r) :: draws rest
  | _ :: rest => draws rest
  end.

(** Every stored record was made by an [ADD_ERROR] of the past. *)
Definition made_by (past : list (ErrorMachineEvent * Readings))
    (ctx : ErrorMachineContext) : Prop :=
  forall e, In e (errors ctx) ->
    exists payload r, In (ADD_ERROR payload, r) past /\ e = newError payload r.

End ErrorMachine.

(** ** The part of React the two providers use: context lookup *)

Module React.
Import Types.

(** The two contexts of the library, made by [createContext]. Neither is
    exported: only the library's own providers supply a value, and that
    value is always an [ErrorContextValue] object. *)
Inductive ContextId : Type := ErrorToastContext_id | ErrorContext_id.

Definition ContextId_eqb (a b : ContextId) : bool :=
  match a, b with
  | ErrorToastContext_id, ErrorToastContext_id
  | ErrorContext_id, ErrorContext_id => true
  | _, _ => false
  end.

Record Context : Type := createContext {
  contextId : ContextId;
  defaultValue : JS.Nullable ErrorContextValue
}.

(** An element above the component that calls a hook. *)
Inductive Element : Type :=
| Provider (c : ContextId) (value : ErrorContextValue)
| Other.

(** [useContext]: the value of the nearest enclosing provider of the
    context ([ancestors] is ordered nearest first), its default value
    where there is none. *)
Fixpoint useContext (c : Context) (ancestors : list Element)
  : JS.Nullable ErrorContextValue :=
  match ancestors with
  | [] => defaultValue c
  | Provider c' value :: rest =>
      if ContextId_eqb (contextId c) c' then JS.Object value
      else useContext c rest
  | Other :: rest => useContext c rest
  end.

(** The component calling the hook is rendered below a provider of [c]. *)
Definition inside (c : Context) (ancestors : list Element) : bool :=
  existsb (fun el => match el with
                     | Provider c' _ => ContextId_eqb (contextId c) c'
                     | Other => false
                     end) ancestors.

End React.

(** ** [src/context/ErrorToastProvider.tsx] *)

Module ErrorToastProvider.
Import Types ErrorMachine.

Definition ErrorToastContext : React.Context :=
  React.createContext React.ErrorToastContext_id JS.Null.

Section Inner.
Variable JSON_stringify : ContextRecord -> string.

(** [send]: the machine takes the event at once. *)
Definition send (ctx : ErrorMachineContext) (event : ErrorMachineEvent)
    (r : Readings) : ErrorMachineContext * list LogEntry :=
  transition JSON_stringify ctx event r.

(** The effect run on mount and whenever the [maxErrors] prop changes. *)
Definition setMaxErrorsEffect (maxErrors : Z) (ctx : ErrorMachineContext)
    (r : Readings) : ErrorMachineContext * list LogEntry :=
  send ctx (SET_MAX_ERRORS maxErrors) r.

Definition handleOnline (ctx : ErrorMachineContext) (r : Readings)
  : ErrorMachineContext * list LogEntry :=
  send ctx (SET_ONLINE_STATUS true) r.

Definition offlineError : CreateErrorInput :=
  {| type := network;
     message := "Você está offline. Verifique sua conexão com a internet.";
     details := None;
     stack := None;
     recoverable := Some true;
     code := None;
     context := None;
     action := None |}.

(** The listener of the browser's [offline] event: two events in a row. *)
Definition handleOffline (ctx : ErrorMachineContext) (r : Readings)
  : ErrorMachineContext * list LogEntry :=
  let (ctx1, out1) := send ctx (SET_ONLINE_STATUS false) r in
  let (ctx2, out2) := send ctx1 (ADD_ERROR offlineError) r in
  (ctx2, out1 ++ out2).

Definition addError (ctx : ErrorMachineContext) (error : CreateErrorInput)
    (r : Readings) : ErrorMachineContext * list LogEntry :=
  send ctx (ADD_ERROR error) r.

Definition removeError (ctx : ErrorMachineContext) (id : string)
    (r : Readings) : ErrorMachineContext * list LogEntry :=
  send ctx (REMOVE_ERROR id) r.

Definition clearErrors (ctx : ErrorMachineContext) (r : Readings)
  : ErrorMachineContext * list LogEntry :=
  send ctx CLEAR_ERRORS r.

Definition setGlobalError (ctx : ErrorMachineContext)
    (error : option AppError) (r : Readings)
  : ErrorMachineContext * list LogEntry :=
  send ctx (SET_GLOBAL_ERROR error) r.
End Inner.

Definition useErrorToast (ancestors : list React.Element)
  : JS.Completion (JS.Nullable ErrorContextValue) :=
  let context := React.useContext ErrorToastContext ancestors in
  match context with
  | JS.Null =>
      JS.Throw "useErrorToast must be used within an ErrorToastProvider"
  | _ => JS.Return context
  end.

End ErrorToastProvider.

(** ** [src/context/ErrorContext.tsx]: the legacy store, without XState *)

Module ErrorContext.
Import Types.

Definition ErrorContext : React.Context :=
  React.createContext React.ErrorContext_id JS.Undefined.

Record ErrorProviderProps : Type := mkProps {
  maxErrors : Z;
  deduplicationWindow : Z
}.

Definition defaultProps : ErrorProviderProps :=
  {| maxErrors := 50; deduplicationWindow := 1000 |}.

(** The three [useState] cells of [ErrorProvider]. *)
Record State : Type := mkState {
  errors : list AppError;
  isOnline : bool;
  globalError : option AppError
}.

Definition handleOnline (st : State) : State :=
  {| errors := errors st; isOnline := true; globalError := globalError st |}.

Definition handleOffline (st : State) : State :=
  {| errors := errors st; isOnline := false; globalError := globalError st |}.

(** The test of [errors.some(...)] in [addError]. *)
Definition isDuplicate (props : ErrorProviderProps) (errors : list AppError)
    (input : CreateErrorInput) (timestamp : Z) : bool :=
  existsb (fun existingError =>
             let timeDiff := timestamp - Types.timestamp existingError in
             (String.eqb (message (Types.input existingError)) (message input)
              && ErrorType_eqb (type (Types.input existingError)) (type input)
              && (timeDiff <? deduplicationWindow props))%bool)
          errors.

Definition appError (input : CreateErrorInput) (timestamp : Z)
    (random : string) : AppError :=
  {| id := ("error_" ++ JS.Number_toString timestamp ++ "_" ++ random)%string;
     Types.timestamp := timestamp;
     Types.input := input |}.

(** [addError]: [errors] is the list the callback closed over (the one of
    the render that made it), [prev] the list the state updater receives.
    Nothing is written to the console. *)
Definition addError (props : ErrorProviderProps) (errors : list AppError)
    (input : CreateErrorInput) (timestamp : Z) (random : string)
    (prev : list AppError) : list AppError * list LogEntry :=
  if isDuplicate props errors input timestamp then (prev, [])
  else
    let updated := prev ++ [appError input timestamp random] in
    (JS.Array_slice (- maxErrors props) updated, []).

(** [addError] called from the current render, on the whole state. *)
Definition dispatchAddError (props : ErrorProviderProps) (st : State)
    (input : CreateErrorInput) (timestamp : Z) (random : string)
  : State * list LogEntry :=
  let (errors', out) :=
    addError props (errors st) input timestamp random (errors st) in
  ({| errors := errors'; isOnline := isOnline st;
      globalError := globalError st |}, out).

Definition removeError (id : string) (prev : list AppError) : list AppError :=
  filter (fun error => negb (String.eqb (Types.id error) id)) prev.

Definition clearAllErrors (prev : list AppError) : list AppError := [].

(** [setGlobalError] is the bare state setter. *)
Definition setGlobalError (st : State) (error : option AppError)
  : State * list LogEntry :=
  ({| errors := errors st; isOnline := isOnline st; globalError := error |},
   []).

Definition useErrorContext (ancestors : list React.Element)
  : JS.Completion (JS.Nullable ErrorContextValue) :=
  let context := React.useContext ErrorContext ancestors in
  match context with
  | JS.Undefined =>
      JS.Throw "useErrorContext must be used within an ErrorProvider"
  | _ => JS.Return context
  end.

End ErrorContext.

(** ** Sequences of events: what a run announces and what it sets *)

Module Runs.
Import Types ErrorMachine.

(** The records handed to [logErrorToConsole] along a sequence of events:
    the one each [ADD_ERROR] builds, and the payload of each
    [SET_GLOBAL_ERROR] that is not [null]. *)
Fixpoint announced (events : list (ErrorMachineEvent * Readings))
  : list AppError :=
  match events with
  | [] => []
  | (ADD_ERROR payload, r) :: rest => newError payload r :: announced rest
  | (SET_GLOBAL_ERROR (Some e), _) :: rest => e :: announced rest
  | _ :: rest => announced rest
  end.

(** The clock values the [ADD_ERROR] events of a sequence store as
    [timestamp], in order. *)
Fixpoint stamps (events : list (ErrorMachineEvent * Readings)) : list Z :=
  match events with
  | [] => []
  | (ADD_ERROR _, r) :: rest => Date_now_timestamp r :: stamps rest
  | _ :: rest => stamps rest
  end.

Definition is_SET_GLOBAL_ERROR (entry : ErrorMachineEvent * Readings) : bool :=
  match fst entry with SET_GLOBAL_ERROR _ => true | _ => false end.

Definition is_SET_ONLINE_STATUS (entry : ErrorMachineEvent * Readings) : bool :=
  match fst entry with SET_ONLINE_STATUS _ => true | _ => false end.

Definition is_SET_MAX_ERRORS (entry : ErrorMachineEvent * Readings) : bool :=
  match fst entry with SET_MAX_ERRORS _ => true | _ => false end.

End Runs.

(** ** [JSON.stringify] as it is: it returns a string or throws *)

Module Serialiser.
Import Types.

(** [serialise c] is [None] where [JSON.stringify(c, null, 2)] throws (a
    cyclic object, a BigInt inside). Where it returns, [returned] is the
    string; the state machine is run with it on records that
    [serialisable] accepts, for which the call does return. *)
Definition returned (serialise : ContextRecord -> option string)
    (c : ContextRecord) : string :=
  match serialise c with Some s => s | None => EmptyString end.

Definition serialisable (serialise : ContextRecord -> option string)
    (e : AppError) : bool :=
  match context (input e) with
  | Some c => match serialise c with Some _ => true | None => false end
  | None => true
  end.

End Serialiser.

(** ** [String.prototype.includes] *)

Module JSStrings.

(** [s.includes(sub)]: [sub] starts at some position of [s]. *)
Fixpoint includes (s sub : string) : bool :=
  if String.prefix sub s then true
  else match s with
       | EmptyString => false
       | String _ s' => includes s' sub
       end.

(** [s?.includes(sub)] in a condition: [undefined] is falsy. *)
Definition optional_includes (s : option string) (sub : string) : bool :=
  match s with
  | Some s => includes s sub
  | None => false
  end.

(** [`${v}`] for a string that may be [undefined]. *)
Definition template (v : option string) : string :=
  match v with
  | Some s => s
  | None => "undefined"
  end.

End JSStrings.

(** ** [error.machine.ts]: the functions that build requests *)

Module ErrorFactories.
Import Types.

(** An [Error] object: its message and its stack, if it has one. *)
Record JsError : Type := mkError {
  error_message : string;
  error_stack : option string
}.

Definition createNetworkError (message : string) (details : option string)
  : CreateErrorInput :=
  {| type := network; message := message; details := details; stack := None;
     recoverable := Some true; code := None; context := None; action := None |}.

Definition createValidationError (message : string) (details : option string)
  : CreateErrorInput :=
  {| type := validation; message := message; details := details; stack := None;
     recoverable := Some true; code := None; context := None; action := None |}.

Definition createCartError (message : string) (details : option string)
  : CreateErrorInput :=
  {| type := cart; message := message; details := details; stack := None;
     recoverable := Some true; code := None; context := None; action := None |}.

Definition createCheckoutError (message : string) (details : option string)
  : CreateErrorInput :=
  {| type := checkout; message := message; details := details; stack := None;
     recoverable := Some false; code := None; context := None; action := None |}.

Definition createGeneralError (message : string) (details : option string)
  : CreateErrorInput :=
  {| type := general; message := message; details := details; stack := None;
     recoverable := Some false; code := None; context := None; action := None |}.

Definition createAuthError (message : string) (details : option string)
  : CreateErrorInput :=
  {| type := auth; message := message; details := details; stack := None;
     recoverable := Some true; code := None; context := None; action := None |}.

Definition errorToCreateInput (error : JsError) (context : option ContextRecord)
  : CreateErrorInput :=
  {| type := general; message := error_message error; details := None;
     stack := error_stack error; recoverable := Some false; code := None;
     Types.context := context; action := None |}.

End ErrorFactories.

(** ** [ErrorToastProvider.tsx]: the toasts of [ErrorToastProviderInner] *)

Module Toasts.
Import Types ErrorMachine.

(** [VariantType] of notistack. *)
Inductive VariantType : Type :=
| variant_default | variant_error | variant_success | variant_warning
| variant_info.

Definition errorTypeToVariant (t : ErrorType) : VariantType :=
  match t with
  | validation => variant_warning
  | network | auth | cart | checkout | general => variant_error
  end.

(** The options given to [enqueueSnackbar]; [snack_action] is the action
    whose label and handler the rendered button uses. *)
Record SnackbarOptions : Type := mkOptions {
  variant : VariantType;
  key : string;
  autoHideDuration : Z;
  snack_action : option Action
}.

(** The calls the component makes to its collaborators. *)
Inductive Call : Type :=
| onError (error : AppError)
| enqueueSnackbar (message : string) (options : SnackbarOptions)
| closeSnackbar (key : string).

(** [previousErrorRef.current !== id], the ref being a string or [null]. *)
Definition differs (ref : option string) (id : string) : bool :=
  match ref with
  | Some previous => negb (String.eqb id previous)
  | None => true
  end.

(** The body of the effect that shows a toast; [onError_given] tells
    whether the [onError] prop is there. It returns the new value of
    [previousErrorRef.current] and the calls made. *)
Definition toastEffect (onError_given : bool) (latestError : option AppError)
    (previousErrorRef : option string) : option string * list Call :=
  match latestError with
  | Some e =>
      if differs previousErrorRef (id e) then
        (Some (id e),
         (if onError_given then [onError e] else [])
         ++ [enqueueSnackbar (message (input e))
               {| variant := errorTypeToVariant (type (input e));
                  key := id e;
                  autoHideDuration :=
                    match recoverable (input e) with
                    | Some true => 5000
                    | _ => 8000
                    end;
                  snack_action := action (input e) |}])
      else (previousErrorRef, [])
  | None => (previousErrorRef, [])
  end.

(** The component between two renders: the context of its machine and the
    ref. *)
Record Inner : Type := mkInner {
  machine : ErrorMachineContext;
  previousErrorRef : option string
}.

(** What one command of the context API leaves: the component, the
    console and the calls. *)
Definition Outcome : Type := (Inner * list LogEntry * list Call)%type.

Section Component.
Variable JSON_stringify : ContextRecord -> string.
Variable onError_given : bool.

(** A render followed by the effect, [latestError] being
    [getLatestError(state)]. *)
Definition render (ctx : ErrorMachineContext) (ref : option string)
  : Inner * list Call :=
  let (ref', calls) := toastEffect onError_given (getLatestError ctx) ref in
  ({| machine := ctx; previousErrorRef := ref' |}, calls).

Definition addError (st : Inner) (error : CreateErrorInput) (r : Readings)
  : Outcome :=
  let (ctx, console) :=
    ErrorToastProvider.send JSON_stringify (machine st) (ADD_ERROR error) r in
  let (st', calls) := render ctx (previousErrorRef st) in
  (st', console, calls).

Definition addErrorFromException (st : Inner)
    (error : ErrorFactories.JsError) (context : option ContextRecord)
    (r : Readings) : Outcome :=
  addError st (ErrorFactories.errorToCreateInput error context) r.

Definition removeError (st : Inner) (id : string) (r : Readings) : Outcome :=
  let (ctx, console) :=
    ErrorToastProvider.send JSON_stringify (machine st) (REMOVE_ERROR id) r in
  let (st', calls) := render ctx (previousErrorRef st) in
  (st', console, closeSnackbar id :: calls).

Definition clearErrors (st : Inner) (r : Readings) : Outcome :=
  let closed := map (fun error => closeSnackbar (Types.id error))
                    (getErrors (machine st)) in
  let (ctx, console) :=
    ErrorToastProvider.send JSON_stringify (machine st) CLEAR_ERRORS r in
  let (st', calls) := render ctx (previousErrorRef st) in
  (st', console, closed ++ calls).
End Component.

End Toasts.

(** ** [ErrorToastProvider.tsx]: the listener of GraphQL errors *)

Module ApolloBridge.
Import Types ErrorMachine.

(** [event.detail] of an [apollo-graphql-error] event; [path] is given as
    the string the template literal turns it into. *)
Record GraphQLErrorDetail : Type := mkDetail {
  detail_message : option string;
  detail_operation : option string;
  detail_path : option string
}.

Definition authOperations : list string :=
  ["Login"; "Register"; "RefreshToken"; "Logout"; "Me"].

Definition passwordResetOperations : list string :=
  ["RequestPasswordReset"; "ResetPassword"].

Section Listener.
Variable JSON_stringify : ContextRecord -> string.
(** [String.prototype.toLowerCase]. *)
Variable toLowerCase : string -> string.

(** [message?.toLowerCase().includes(sub)] in a condition. *)
Definition lowered_includes (message : option string) (sub : string) : bool :=
  match message with
  | Some m => JSStrings.includes (toLowerCase m) sub
  | None => false
  end.

Definition serverError (detail : GraphQLErrorDetail) : CreateErrorInput :=
  {| type := general;
     message := "Erro no servidor. Nossa equipe foi notificada.";
     details :=
       Some ("Operação: " ++ JSStrings.template (detail_operation detail)
             ++ JS.newline ++ "Caminho: "
             ++ JSStrings.template (detail_path detail)
             ++ JS.newline ++ "Mensagem: "
             ++ JSStrings.template (detail_message detail))%string;
     stack := None;
     recoverable := Some true;
     code := None;
     context := None;
     action := None |}.

Definition handleApolloGraphQLError (ctx : ErrorMachineContext)
    (detail : GraphQLErrorDetail) (r : Readings)
  : ErrorMachineContext * list LogEntry :=
  if existsb (fun op => JSStrings.optional_includes (detail_operation detail) op)
             authOperations
  then (ctx, [])
  else if existsb (fun op =>
                     JSStrings.optional_includes (detail_operation detail) op)
                  passwordResetOperations
  then (ctx, [])
  else if (lowered_includes (detail_message detail) "invalid credentials"
           || lowered_includes (detail_message detail) "credenciais inválidas")%bool
  then (ctx, [])
  else if (lowered_includes (detail_message detail)
             "redefinição de senha solicitada recentemente"
           || lowered_includes (detail_message detail)
                "password reset requested too recently")%bool
  then (ctx, [])
  else ErrorToastProvider.send JSON_stringify ctx
         (ADD_ERROR (serverError detail)) r.
End Listener.

End ApolloBridge.

(** ** [ErrorToastProvider.tsx]: the configuration of the toasts *)

Module ToastConfiguration.

Inductive ToastPosition : Type :=
| top_right | top_left | top_center
| bottom_right | bottom_left | bottom_center.

(** The string a value of [ToastPosition] is at run time. *)
Definition ToastPosition_string (p : ToastPosition) : string :=
  match p with
  | top_right => "top-right"
  | top_left => "top-left"
  | top_center => "top-center"
  | bottom_right => "bottom-right"
  | bottom_left => "bottom-left"
  | bottom_center => "bottom-center"
  end.

Record ToastConfig : Type := mkConfig {
  position : ToastPosition;
  autoHideDuration : Z;
  maxToasts : Z;
  preventDuplicates : bool
}.

(** [Partial<ToastConfig>]. *)
Record PartialToastConfig : Type := mkPartial {
  given_position : option ToastPosition;
  given_autoHideDuration : option Z;
  given_maxToasts : option Z;
  given_preventDuplicates : option bool
}.

Definition DEFAULT_CONFIG : ToastConfig :=
  {| position := top_right;
     autoHideDuration := 5000;
     maxToasts := 3;
     preventDuplicates := true |}.

Definition or_default {A : Type} (given : option A) (default : A) : A :=
  match given with Some a => a | None => default end.

(** [{ ...DEFAULT_CONFIG, ...config }]. *)
Definition mergedConfig (config : PartialToastConfig) : ToastConfig :=
  {| position := or_default (given_position config) (position DEFAULT_CONFIG);
     autoHideDuration :=
       or_default (given_autoHideDuration config)
                  (autoHideDuration DEFAULT_CONFIG);
     maxToasts := or_default (given_maxToasts config) (maxToasts DEFAULT_CONFIG);
     preventDuplicates :=
       or_default (given_preventDuplicates config)
                  (preventDuplicates DEFAULT_CONFIG) |}.

Record AnchorOrigin : Type := mkAnchor {
  vertical : string;
  horizontal : string
}.

Definition anchorOrigin (mergedConfig : ToastConfig) : AnchorOrigin :=
  let position := ToastPosition_string (position mergedConfig) in
  {| vertical := if JSStrings.includes position "top" then "top" else "bottom";
     horizontal :=
       if JSStrings.includes position "left" then "left"
       else if JSStrings.includes position "center" then "center"
       else "right" |}.

(** The props [ErrorToastProvider] gives to [SnackbarProvider]. *)
Record SnackbarProviderProps : Type := mkProviderProps {
  maxSnack : Z;
  provider_autoHideDuration : Z;
  preventDuplicate : bool;
  provider_anchorOrigin : AnchorOrigin
}.

Definition snackbarProviderProps (config : PartialToastConfig)
  : SnackbarProviderProps :=
  let merged := mergedConfig config in
  {| maxSnack := maxToasts merged;
     provider_autoHideDuration := autoHideDuration merged;
     preventDuplicate := preventDuplicates merged;
     provider_anchorOrigin := anchorOrigin merged |}.

End ToastConfiguration.

(** ** [components/ErrorBoundary.tsx] *)

Module ErrorBoundary.
Import ErrorFactories.

(** [React.ErrorInfo]. *)
Record ErrorInfo : Type := mkInfo { componentStack : option string }.

Record ErrorBoundaryState : Type := mkBoundaryState {
  hasError : bool;
  error : option JsError;
  errorInfo : option ErrorInfo
}.

(** An entry of [resetKeys], of type [unknown], as [===] sees it:
    [undefined], [NaN] (which is [===] to nothing, itself included), or a
    value that is [===] to itself and to no value with another number. *)
Inductive Key : Type :=
| key_undefined
| key_NaN
| key_value (n : nat).

(** [a === b]. *)
Definition Key_eqb (a b : Key) : bool :=
  match a, b with
  | key_undefined, key_undefined => true
  | key_value n, key_value m => Nat.eqb n m
  | _, _ => false
  end.

(** The props the logic looks at; the callbacks are opaque, only their
    presence matters. *)
Record ErrorBoundaryProps : Type := mkBoundaryProps {
  fallback_given : bool;
  onError_given : bool;
  onReset_given : bool;
  resetKeys : option (list Key)
}.

(** An argument of [console.error]. *)
Inductive ConsoleArg : Type :=
| arg_string (s : string)
| arg_undefined
| arg_error (e : JsError).

Definition arg_optional (s : option string) : ConsoleArg :=
  match s with Some s => arg_string s | None => arg_undefined end.

Inductive Call : Type :=
| call_onError (error : JsError) (errorInfo : ErrorInfo)
| call_onReset
| call_console_error (args : list ConsoleArg).

Definition initialState : ErrorBoundaryState :=
  {| hasError := false; error := None; errorInfo := None |}.

(** [getDerivedStateFromError] returns [{ hasError: true, error }], which
    React merges into the state. *)
Definition getDerivedStateFromError (e : JsError) (st : ErrorBoundaryState)
  : ErrorBoundaryState :=
  {| hasError := true; error := Some e; errorInfo := errorInfo st |}.

Definition componentDidCatch (props : ErrorBoundaryProps)
    (st : ErrorBoundaryState) (e : JsError) (info : ErrorInfo)
  : ErrorBoundaryState * list Call :=
  ({| hasError := hasError st; error := error st; errorInfo := Some info |},
   (if onError_given props then [call_onError e info] else [])
   ++ [call_console_error
         [ arg_string "[ErrorBoundary] Caught error:";
           arg_string (error_message e);
           arg_string (JS.newline ++ "Component stack:");
           arg_optional (componentStack info);
           arg_string (JS.newline ++ "Error stack:");
           arg_optional (error_stack e) ]]).

Definition reset (props : ErrorBoundaryProps) (st : ErrorBoundaryState)
  : ErrorBoundaryState * list Call :=
  (initialState, if onReset_given props then [call_onReset] else []).

(** [resetKeys.some((key, index) => key !== previous?.[index])]: the
    entries of [previous] are taken in step, [undefined] past its end. *)
Fixpoint hasResetKeyChanged (resetKeys previous : list Key) : bool :=
  match resetKeys with
  | [] => false
  | key :: rest =>
      negb (Key_eqb key (hd key_undefined previous))
      || hasResetKeyChanged rest (tl previous)
  end.

Definition componentDidUpdate (props prevProps : ErrorBoundaryProps)
    (st : ErrorBoundaryState) : ErrorBoundaryState * list Call :=
  match hasError st, resetKeys props, resetKeys prevProps with
  | true, Some keys, Some previous =>
      if hasResetKeyChanged keys previous then reset props st else (st, [])
  | _, _, _ => (st, [])
  end.

(** What [render] returns: the children, or the fallback component (the
    one of the props, or [DefaultFallback]) with its props;
    [resetError] is always [this.reset]. *)
Inductive Rendered : Type :=
| children
| fallback (custom : bool) (e : JsError) (info : ErrorInfo) (isOnline : bool).

Definition render (props : ErrorBoundaryProps) (st : ErrorBoundaryState)
    (navigator_onLine : option bool) : Rendered :=
  match hasError st, error st, errorInfo st with
  | true, Some e, Some info =>
      fallback (fallback_given props) e info
               (match navigator_onLine with Some b => b | None => true end)
  | _, _, _ => children
  end.

End ErrorBoundary.

(** ** [radix/ErrorFallback.tsx] *)

Module ErrorFallback.
Import ErrorFactories.

(** An argument of [cn]: [string | undefined | null | false]. *)
Inductive ClassValue : Type :=
| class_string (s : string)
| class_undefined
| class_null
| class_false.

(** [Boolean(v)] on such a value: only a non-empty string is truthy. *)
Definition Boolean (v : ClassValue) : bool :=
  match v with
  | class_string (String _ _) => true
  | _ => false
  end.

Definition class_text (v : ClassValue) : string :=
  match v with class_string s => s | _ => "" end.

Definition cn (classes : list ClassValue) : string :=
  String.concat " " (map class_text (filter Boolean classes)).

(** [hostname] is [None] where [window] is undefined. *)
Definition isDevelopment (hostname : option string) : bool :=
  match hostname with
  | None => false
  | Some h => (String.eqb h "localhost" || String.eqb h "127.0.0.1")%bool
  end.

(** What the retry button calls. *)
Inductive RetryHandler : Type :=
| handleRetry_of_boundary
| reload_location
| other_handler (n : nat).

Record ErrorFallbackProps : Type := mkFallbackProps {
  error : option JsError;
  onRetry : option RetryHandler;
  className : option string;
  showDetails : option bool;
  title : option string;
  message : option string;
  retryLabel : option string
}.

Definition class_of (className : option string) : ClassValue :=
  match className with Some s => class_string s | None => class_undefined end.

Definition base_classes : string :=
  "flex min-h-[400px] flex-col items-center justify-center gap-6 rounded-lg border border-border bg-card p-8 text-center".

(** What the component shows: the classes of the outer element, the two
    texts, the text of the details block if there is one, and the label
    and handler of the retry button if there is one. *)
Record Shown : Type := mkShown {
  shown_className : string;
  shown_title : string;
  shown_message : string;
  shown_details : option string;
  shown_retry : option (string * RetryHandler)
}.

Definition or_default (given : option string) (default : string) : string :=
  match given with Some s => s | None => default end.

Definition ErrorFallback (hostname : option string) (props : ErrorFallbackProps)
  : Shown :=
  let showDetails :=
    match showDetails props with
    | Some b => b
    | None => isDevelopment hostname
    end in
  {| shown_className :=
       cn [class_string base_classes; class_of (className props)];
     shown_title := or_default (title props) "Algo deu errado";
     shown_message :=
       or_default (message props)
         "Ocorreu um erro inesperado. Por favor, tente novamente ou entre em contato com o suporte se o problema persistir.";
     shown_details :=
       match showDetails, error props with
       | true, Some e =>
           Some (error_message e
                 ++ (if JS.truthy (error_stack e)
                     then JS.newline ++ JS.newline
                          ++ match error_stack e with Some s => s | None => "" end
                     else ""))%string
       | _, _ => None
       end;
     shown_retry :=
       match onRetry props with
       | Some h => Some (or_default (retryLabel props) "Tentar novamente", h)
       | None => None
       end |}.

End ErrorFallback.

(** ** [radix/ErrorBoundary.tsx] *)

Module RadixErrorBoundary.
Import ErrorFactories.

(** A [ReactNode] given as [fallback]. *)
Inductive ReactNode : Type :=
| node_element (n : nat)
| node_string (s : string)
| node_number (z : Z)
| node_boolean (b : bool)
| node_null
| node_undefined.

Definition truthy (node : ReactNode) : bool :=
  match node with
  | node_element _ => true
  | node_string (String _ _) => true
  | node_string EmptyString => false
  | node_number z => negb (z =? 0)
  | node_boolean b => b
  | node_null | node_undefined => false
  end.

(** [Omit<ErrorFallbackProps, 'error' | 'onRetry'>]. *)
Record FallbackCustomization : Type := mkCustomization {
  custom_className : option string;
  custom_showDetails : option bool;
  custom_title : option string;
  custom_message : option string;
  custom_retryLabel : option string
}.

Record RadixErrorBoundaryProps : Type := mkRadixProps {
  fallback : ReactNode;
  fallbackProps : option FallbackCustomization;
  onError_given : bool;
  captureException_given : bool
}.

Record RadixErrorBoundaryState : Type := mkRadixState {
  hasError : bool;
  error : option JsError
}.

Inductive ConsoleArg : Type :=
| arg_string (s : string)
| arg_undefined
| arg_error (e : JsError).

Inductive Call : Type :=
| call_console_error (args : list ConsoleArg)
| call_captureException (e : JsError) (componentStack : option string)
    (errorBoundary : string)
| call_onError (e : JsError) (componentStack : option string).

Definition initialState : RadixErrorBoundaryState :=
  {| hasError := false; error := None |}.

Definition getDerivedStateFromError (e : JsError) : RadixErrorBoundaryState :=
  {| hasError := true; error := Some e |}.

Definition componentDidCatch (props : RadixErrorBoundaryProps)
    (e : JsError) (componentStack : option string) : list Call :=
  [ call_console_error
      [arg_string "[ErrorBoundary] Rendering error caught:"; arg_error e];
    call_console_error
      [ arg_string "[ErrorBoundary] Component stack:";
        match componentStack with
        | Some s => arg_string s
        | None => arg_undefined
        end ] ]
  ++ (if captureException_given props
      then [call_captureException e componentStack "radix"] else [])
  ++ (if onError_given props then [call_onError e componentStack] else []).

Definition handleRetry (st : RadixErrorBoundaryState)
  : RadixErrorBoundaryState :=
  {| hasError := false; error := None |}.

Inductive Rendered : Type :=
| children
| custom_fallback (node : ReactNode)
| default_fallback (shown : ErrorFallback.Shown).

Definition fallback_props (st : RadixErrorBoundaryState)
    (customization : option FallbackCustomization)
  : ErrorFallback.ErrorFallbackProps :=
  {| ErrorFallback.error := error st;
     ErrorFallback.onRetry := Some ErrorFallback.handleRetry_of_boundary;
     ErrorFallback.className :=
       match customization with Some c => custom_className c | None => None end;
     ErrorFallback.showDetails :=
       match customization with Some c => custom_showDetails c | None => None end;
     ErrorFallback.title :=
       match customization with Some c => custom_title c | None => None end;
     ErrorFallback.message :=
       match customization with Some c => custom_message c | None => None end;
     ErrorFallback.retryLabel :=
       match customization with Some c => custom_retryLabel c | None => None end
  |}.

Definition render (hostname : option string) (props : RadixErrorBoundaryProps)
    (st : RadixErrorBoundaryState) : Rendered :=
  if hasError st then
    if truthy (fallback props) then custom_fallback (fallback props)
    else default_fallback
           (ErrorFallback.ErrorFallback hostname
              (fallback_props st (fallbackProps props)))
  else children.

(** [RouteErrorComponent]: the fallback inside its wrapper, the retry
    button reloading the page. *)
Definition RouteErrorComponent (hostname : option string) (e : JsError)
  : ErrorFallback.Shown :=
  ErrorFallback.ErrorFallback hostname
    {| ErrorFallback.error := Some e;
       ErrorFallback.onRetry := Some ErrorFallback.reload_location;
       ErrorFallback.className := Some "w-full max-w-lg";
       ErrorFallback.showDetails := None;
       ErrorFallback.title := None;
       ErrorFallback.message := None;
       ErrorFallback.retryLabel := None |}.

End RadixErrorBoundary.

(** ** [ErrorContext.tsx]: adding an exception to the legacy store *)

Module LegacyStore.
Import Types ErrorFactories.

Definition addErrorFromException (props : ErrorContext.ErrorProviderProps)
    (errors : list AppError) (error : JsError)
    (context : option ContextRecord) (timestamp : Z) (random : string)
    (prev : list AppError) : list AppError * list LogEntry :=
  ErrorContext.addError props errors
    {| type := general; message := error_message error; details := None;
       stack := error_stack error; recoverable := Some false; code := None;
       Types.context := context; action := None |}
    timestamp random prev.

(** The context of the state machine that holds the list of the legacy
    store under its capacity. *)
Definition as_machine (props : ErrorContext.ErrorProviderProps)
    (st : ErrorContext.State) : ErrorMachine.ErrorMachineContext :=
  {| ErrorMachine.errors := ErrorContext.errors st;
     ErrorMachine.globalError := ErrorContext.globalError st;
     ErrorMachine.isOnline := ErrorContext.isOnline st;
     ErrorMachine.maxErrors := ErrorContext.maxErrors props |}.

End LegacyStore.

(** ** Sample inputs, for the concrete scenarios below *)

Module Samples.
Import Types ErrorMachine.

Definition stringify (c : ContextRecord) : string := "{}".

Definition request (t : ErrorType) (m : string) : CreateErrorInput :=
  {| type := t; message := m; details := None; stack := None;
     recoverable := None; code := None; context := None; action := None |}.

Definition reading (now : Z) (random : string) : Readings :=
  {| Date_now_id := now; Math_random := random; Date_now_timestamp := now |}.

(** Capacity 2, then three additions: the records of B and C remain. *)
Definition three_added : list (ErrorMachineEvent * Readings) :=
  [ (SET_MAX_ERRORS 2, reading 999 "");
    (ADD_ERROR (request validation "A"), reading 1000 "k3x9a");
    (ADD_ERROR (request network "B"), reading 1001 "k3x9b");
    (ADD_ERROR (request general "C"), reading 1002 "k3x9c") ].

Definition holds_B_C : ErrorMachineContext :=
  fst (run stringify (initialContext None) three_added).

Definition required_field : CreateErrorInput :=
  request validation "Required field".
End Samples.

(** * Properties *)

(** ** [slice(-n)] *)

Section Slice.
Context {A : Type}.
Implicit Types (l : list A) (n : Z).

Lemma Array_slice_neg_skipn l n :
  1 <= n -> JS.Array_slice (- n) l = skipn (length l - Z.to_nat n) l.
Proof.
  intros Hn. unfold JS.Array_slice.
  destruct (Z.ltb_spec (- n) 0) as [_ | H]; [ | lia ].
  f_equal. lia.
Qed.

Lemma Array_slice_neg_length l n :
  1 <= n -> Z.of_nat (length (JS.Array_slice (- n) l)) <= n.
Proof.
  intros Hn. rewrite Array_slice_neg_skipn by assumption.
  rewrite length_skipn. lia.
Qed.

Lemma Array_slice_neg_fits l n :
  0 <= n -> Z.of_nat (length l) <= n -> JS.Array_slice (- n) l = l.
Proof.
  intros Hn Hl. unfold JS.Array_slice.
  destruct (Z.ltb_spec (- n) 0).
  - replace (Z.to_nat _) with O by lia. reflexivity.
  - replace (Z.to_nat _) with O by lia. reflexivity.
Qed.

(** A list one element over the bound loses exactly its head. *)
Lemma Array_slice_neg_full x l y n :
  Z.of_nat (length (x :: l)) = n ->
  JS.Array_slice (- n) ((x :: l) ++ [y]) = l ++ [y].
Proof.
  intros Hl. rewrite Array_slice_neg_skipn by (cbn [length] in Hl; lia).
  rewrite length_app. cbn [length] in *.
  replace (_ - _)%nat with 1%nat by lia. reflexivity.
Qed.

Lemma Array_slice_incl start l x :
  In x (JS.Array_slice start l) -> In x l.
Proof.
  unfold JS.Array_slice. intros H.
  rewrite <- (firstn_skipn (Z.to_nat
    (if start <? 0 then Z.max (Z.of_nat (length l) + start) 0
     else Z.min start (Z.of_nat (length l)))) l).
  apply in_or_app. right. exact H.
Qed.

Lemma NoDup_skipn {B : Type} (f : A -> B) k l :
  NoDup (map f l) -> NoDup (map f (skipn k l)).
Proof.
  revert l. induction k as [ | k IH]; intros [ | x l] H; cbn; auto.
  inversion H; subst. apply IH. assumption.
Qed.

End Slice.

(** ** The state machine *)

Section MachineProperties.
Import Types ErrorMachine.
Variable JSON_stringify : ContextRecord -> string.

Local Abbreviation transition := (transition JSON_stringify).
Local Abbreviation trace := (trace JSON_stringify).

(** C8. [CLEAR_ERRORS] empties the list of records, and the global error,
    the connectivity flag and the capacity are as they were. *)
Theorem clear_errors_frame (ctx : ErrorMachineContext) (r : Readings) :
  let ctx' := fst (transition ctx CLEAR_ERRORS r) in
  errors ctx' = []
  /\ globalError ctx' = globalError ctx
  /\ isOnline ctx' = isOnline ctx
  /\ maxErrors ctx' = maxErrors ctx.
Proof. cbn. repeat split. Qed.


Lemma filter_id_absent (i : string) (l : list AppError) :
  ~ In i (map id l) ->
  filter (fun error => negb (String.eqb (id error) i)) l = l.
Proof.
  induction l as [ | e l IH]; cbn [map filter]; intros H; [reflexivity | ].
  destruct (String.eqb_spec (id e) i) as [E | _]; cbn [negb].
  - exfalso. apply H. left. exact E.
  - f_equal. apply IH. intros Hin. apply H. right. exact Hin.
Qed.

Lemma filter_id_present (i : string) (before after : list AppError)
    (e : AppError) :
  id e = i ->
  NoDup (map id (before ++ e :: after)) ->
  filter (fun error => negb (String.eqb (id error) i)) (before ++ e :: after)
  = before ++ after.
Proof.
  intros He Hnd. rewrite map_app in Hnd. cbn [map] in Hnd.
  pose proof (NoDup_remove_2 _ _ _ Hnd) as Hnot. rewrite He in Hnot.
  rewrite filter_app. cbn [filter].
  rewrite He, String.eqb_refl. cbn [negb].
  rewrite !filter_id_absent; [reflexivity | | ];
    intros Hin; apply Hnot; apply in_or_app; auto.
Qed.

(** C7. [REMOVE_ERROR] touches nothing but the list of records; where the
    ids are unique and a record has the id, exactly that record goes and
    the others keep their order; where no record has the id, the whole
    context is as before and nothing fails. *)
Theorem remove_error_exact (ctx : ErrorMachineContext) (i : string)
    (r : Readings) :
  let ctx' := fst (transition ctx (REMOVE_ERROR i) r) in
  (globalError ctx' = globalError ctx
   /\ isOnline ctx' = isOnline ctx
   /\ maxErrors ctx' = maxErrors ctx)
  /\ (forall before e after,
        errors ctx = before ++ e :: after ->
        id e = i ->
        NoDup (map id (errors ctx)) ->
        errors ctx' = before ++ after)
  /\ (~ In i (map id (errors ctx)) ->
      transition ctx (REMOVE_ERROR i) r = (ctx, [])).
Proof.
  cbn [ErrorMachine.transition fst errors globalError isOnline maxErrors].
  split; [ repeat split | split ].
  - intros before e after E He Hnd. rewrite E in Hnd |- *.
    apply filter_id_present; assumption.
  - intros Habs. rewrite filter_id_absent by assumption.
    destruct ctx; reflexivity.
Qed.

(** *** The bound on the number of records *)

Lemma add_error_within_capacity (ctx : ErrorMachineContext)
    (payload : CreateErrorInput) (r : Readings) :
  1 <= maxErrors ctx ->
  within_capacity (fst (transition ctx (ADD_ERROR payload) r)) = true.
Proof.
  intros Hcap. unfold within_capacity.
  cbn [ErrorMachine.transition fst errors maxErrors].
  apply Z.leb_le. apply Array_slice_neg_length. assumption.
Qed.

(** One step keeps a positive capacity and the bound, unless it is a
    [SET_MAX_ERRORS] below the number of records. *)
Lemma transition_keeps_bound (ctx : ErrorMachineContext)
    (event : ErrorMachineEvent) (r : Readings) :
  1 <= maxErrors ctx ->
  within_capacity ctx = true ->
  keeps_bound ctx event = true ->
  let ctx' := fst (transition ctx event r) in
  1 <= maxErrors ctx' /\ within_capacity ctx' = true.
Proof.
  intros Hcap Hin Hok.
  destruct event as [payload | i | | g | b | n].
  - split; [exact Hcap | apply add_error_within_capacity; exact Hcap].
  - unfold within_capacity in *.
    cbn [ErrorMachine.transition fst errors maxErrors].
    split; [exact Hcap | ].
    apply Z.leb_le. apply Z.leb_le in Hin.
    pose proof (filter_length_le
                  (fun error => negb (String.eqb (id error) i)) (errors ctx)).
    lia.
  - unfold within_capacity. cbn. split; [exact Hcap | ].
    apply Z.leb_le. lia.
  - split; assumption.
  - split; assumption.
  - unfold within_capacity.
    cbn [ErrorMachine.transition fst errors maxErrors keeps_bound] in *.
    apply andb_prop in Hok. destruct Hok as [H1 H2].
    split; [apply Z.leb_le; exact H1 | exact H2].
Qed.

Lemma trace_keeps_bound (events : list (ErrorMachineEvent * Readings)) :
  forall ctx : ErrorMachineContext,
    1 <= maxErrors ctx ->
    within_capacity ctx = true ->
    all_keep_bound JSON_stringify ctx events = true ->
    Forall (fun c => within_capacity c = true) (trace ctx events).
Proof.
  induction events as [ | [event r] rest IH]; intros ctx Hcap Hin Hok.
  - constructor.
  - cbn [ErrorMachine.trace all_keep_bound] in *.
    apply andb_prop in Hok. destruct Hok as [Hev Hrest].
    destruct (transition_keeps_bound ctx event r Hcap Hin Hev) as [Hc' Hi'].
    constructor; [exact Hi' | ].
    apply IH; assumption.
Qed.



(** *** Generated ids *)

Lemma digits_no_underscore (d : Decimal.uint) :
  JS.includes_char "_" (NilEmpty.string_of_uint d) = false.
Proof. induction d; cbn; auto. Qed.

Lemma Number_toString_no_underscore (z : Z) :
  JS.includes_char "_" (JS.Number_toString z) = false.
Proof.
  unfold JS.Number_toString, NilZero.string_of_int, NilZero.string_of_uint.
  destruct (Z.to_int z) as [d | d]; destruct d; cbn;
    auto using digits_no_underscore.
Qed.

Lemma Number_toString_inj (z z' : Z) :
  JS.Number_toString z = JS.Number_toString z' -> z = z'.
Proof.
  unfold JS.Number_toString. intros H.
  assert (Hn : forall x, Z.to_int x <> Decimal.Pos Decimal.Nil
                         /\ Z.to_int x <> Decimal.Neg Decimal.Nil).
  { intros [ | p | p]; cbn; split; try discriminate;
      intros [= E]; exact (DecimalPos.Unsigned.to_uint_nonnil p E). }
  apply (f_equal NilZero.int_of_string) in H.
  rewrite !NilZero.isi in H by apply Hn.
  injection H as H.
  rewrite <- (DecimalZ.of_to z), <- (DecimalZ.of_to z'), H. reflexivity.
Qed.

(** Two strings without underscore, each followed by an underscore and a
    suffix: equal wholes have equal parts. *)
Lemma underscore_split (a a' s s' : string) :
  JS.includes_char "_" a = false ->
  JS.includes_char "_" a' = false ->
  (a ++ "_" ++ s)%string = (a' ++ "_" ++ s')%string ->
  a = a' /\ s = s'.
Proof.
  revert a'. induction a as [ | c a IH]; intros [ | c' a'] Ha Ha' E;
    cbn in *.
  - injection E as E. auto.
  - injection E as E1 E2. subst c'. discriminate Ha'.
  - injection E as E1 E2. subst c. discriminate Ha.
  - injection E as E1 E2. subst c'.
    apply orb_false_elim in Ha. apply orb_false_elim in Ha'.
    destruct (IH a' (proj2 Ha) (proj2 Ha') E2) as [-> ->]. auto.
Qed.

Lemma generateErrorId_inj (now now' : Z) (random random' : string) :
  generateErrorId now random = generateErrorId now' random' ->
  now = now' /\ random = random'.
Proof.
  unfold generateErrorId. intros E.
  cbn [String.append] in E. injection E as E.
  apply underscore_split in E; try apply Number_toString_no_underscore.
  destruct E as [E1 E2]. split; [ apply Number_toString_inj | ]; assumption.
Qed.

(** Removing records keeps the remaining ids pairwise distinct. *)
Lemma filter_keeps_ids_unique (keep : AppError -> bool) (records : list AppError) :
  NoDup (map id records) -> NoDup (map id (filter keep records)).
Proof.
  intros Hnd. induction records as [ | e records IH]; cbn [map filter] in *.
  - constructor.
  - inversion Hnd as [ | y ys Hnot Hrest]; subst.
    destruct (keep e); cbn [map]; [ | auto ].
    constructor; [ | auto ].
    intros Hin. apply Hnot.
    apply in_map_iff in Hin. destruct Hin as (z & Hz & Hzin).
    apply filter_In in Hzin. apply in_map_iff. exists z. tauto.
Qed.

Lemma draws_app (past events : list (ErrorMachineEvent * Readings)) :
  draws (past ++ events) = draws past ++ draws events.
Proof.
  induction past as [ | [[ ] r] past IH]; cbn [draws app];
    rewrite ?IH; reflexivity.
Qed.

Lemma draws_In (payload : CreateErrorInput) (r : Readings)
    (past : list (ErrorMachineEvent * Readings)) :
  In (ADD_ERROR payload, r) past ->
  In (Date_now_id r, Math_random r) (draws past).
Proof.
  induction past as [ | [ev r'] past IH]; cbn [In]; [tauto | ].
  intros [E | Hin].
  - injection E as -> ->. left. reflexivity.
  - destruct ev; cbn [draws In]; auto.
Qed.

Lemma transition_made_by (past : list (ErrorMachineEvent * Readings))
    (ctx : ErrorMachineContext) (event : ErrorMachineEvent) (r : Readings) :
  made_by past ctx ->
  made_by (past ++ [(event, r)]) (fst (transition ctx event r)).
Proof.
  intros Hm e He.
  assert (Hold : In e (errors ctx) ->
                 exists payload r0,
                   In (ADD_ERROR payload, r0) (past ++ [(event, r)])
                   /\ e = newError payload r0).
  { intros Hin. destruct (Hm e Hin) as (p & r0 & Hp & ->).
    exists p, r0. split; [apply in_or_app; auto | reflexivity]. }
  destruct event as [payload | i | | g | b | n];
    cbn [ErrorMachine.transition fst errors] in He; auto.
  - apply Array_slice_incl in He. apply in_app_or in He.
    destruct He as [Hin | [<- | [ ]]]; [auto | ].
    exists payload, r. split; [ | reflexivity].
    apply in_or_app. right. left. reflexivity.
  - apply filter_In in He. tauto.
  - destruct He.
Qed.

Lemma transition_ids_unique (past : list (ErrorMachineEvent * Readings))
    (ctx : ErrorMachineContext) (event : ErrorMachineEvent) (r : Readings) :
  made_by past ctx ->
  NoDup (draws (past ++ [(event, r)])) ->
  NoDup (map id (errors ctx)) ->
  NoDup (map id (errors (fst (transition ctx event r)))).
Proof.
  intros Hm Hd Hnd.
  destruct event as [payload | i | | g | b | n];
    cbn [ErrorMachine.transition fst errors]; auto.
  - unfold JS.Array_slice. apply NoDup_skipn.
    rewrite map_app. cbn [map].
    rewrite <- (rev_involutive (_ ++ _)).
    apply NoDup_rev. rewrite rev_app_distr. cbn [rev app].
    constructor; [ | apply NoDup_rev; exact Hnd].
    rewrite <- in_rev. intros Hin.
    apply in_map_iff in Hin. destruct Hin as (e & He & Hin).
    destruct (Hm e Hin) as (p & r0 & Hp & ->).
    cbn [id newError] in He. apply generateErrorId_inj in He.
    rewrite draws_app in Hd. cbn [draws] in Hd.
    apply NoDup_remove_2 in Hd. apply Hd. rewrite app_nil_r.
    destruct He as [E1 E2]. rewrite <- E1, <- E2.
    apply draws_In with (payload := p). exact Hp.
  - apply filter_keeps_ids_unique. exact Hnd.
  - constructor.
Qed.

Lemma run_ids_unique (events : list (ErrorMachineEvent * Readings)) :
  forall (past : list (ErrorMachineEvent * Readings))
         (ctx : ErrorMachineContext),
    made_by past ctx ->
    NoDup (map id (errors ctx)) ->
    NoDup (draws (past ++ events)) ->
    NoDup (map id (errors (fst (run JSON_stringify ctx events)))).
Proof.
  induction events as [ | [event r] rest IH]; intros past ctx Hm Hnd Hd.
  - exact Hnd.
  - cbn [ErrorMachine.run].
    pose proof (transition_made_by past ctx event r Hm) as Hm'.
    assert (Hd1 : NoDup (draws (past ++ [(event, r)]))).
    { replace (past ++ (event, r) :: rest)
        with ((past ++ [(event, r)]) ++ rest) in Hd
        by (rewrite <- app_assoc; reflexivity).
      rewrite draws_app in Hd. apply NoDup_app_remove_r in Hd. exact Hd. }
    pose proof (transition_ids_unique past ctx event r Hm Hd1 Hnd) as Hnd'.
    destruct (transition ctx event r) as [ctx' out] eqn:E.
    cbn [fst] in Hm', Hnd'.
    specialize (IH (past ++ [(event, r)]) ctx' Hm' Hnd').
    rewrite <- app_assoc in IH. specialize (IH Hd).
    destruct (run JSON_stringify ctx' rest) as [ctx'' out']. exact IH.
Qed.

Lemma run_made_by (events : list (ErrorMachineEvent * Readings)) :
  forall (past : list (ErrorMachineEvent * Readings))
         (ctx : ErrorMachineContext),
    made_by past ctx ->
    made_by (past ++ events) (fst (run JSON_stringify ctx events)).
Proof.
  induction events as [ | [event r] rest IH]; intros past ctx Hm.
  - rewrite app_nil_r. exact Hm.
  - cbn [ErrorMachine.run].
    pose proof (transition_made_by past ctx event r Hm) as Hm'.
    destruct (transition ctx event r) as [ctx' out] eqn:E.
    cbn [fst] in Hm'. specialize (IH _ _ Hm').
    rewrite <- app_assoc in IH.
    destruct (run JSON_stringify ctx' rest) as [ctx'' out']. exact IH.
Qed.

(** C9 (amended). In every context reached from the initial one, each
    stored record was built by an [ADD_ERROR]: its id is made by
    [generateErrorId] from the clock and the random draw, and nothing of
    the request enters it. The stored ids are pairwise distinct provided
    no two [ADD_ERROR] events of the sequence saw the same clock value
    together with the same random suffix. *)
Theorem ids_unique_for_distinct_draws (navigator_onLine : option bool)
    (events : list (ErrorMachineEvent * Readings)) :
  let final := fst (run JSON_stringify (initialContext navigator_onLine) events) in
  (forall e, In e (errors final) ->
     exists payload r,
       In (ADD_ERROR payload, r) events
       /\ e = newError payload r
       /\ id e = generateErrorId (Date_now_id r) (Math_random r))
  /\ (NoDup (draws events) -> NoDup (map id (errors final))).
Proof.
  assert (H0 : made_by [] (initialContext navigator_onLine))
    by (intros e [ ]).
  split.
  - intros e He.
    destruct (run_made_by events [] _ H0 e He) as (p & r & Hin & ->).
    exists p, r. repeat split. exact Hin.
  - intros Hd. apply (run_ids_unique events [] _ H0); [constructor | exact Hd].
Qed.

(** *** The latest record and the console *)

Lemma last_skipn_snoc {A : Type} (k : nat) (l : list A) (y d : A) :
  (k <= length l)%nat -> last (skipn k (l ++ [y])) d = y.
Proof.
  intros Hk. rewrite skipn_app.
  replace (k - length l)%nat with O by lia. cbn [skipn].
  apply last_last.
Qed.

Lemma latest_after_add (ctx : ErrorMachineContext)
    (payload : CreateErrorInput) (r : Readings) :
  1 <= maxErrors ctx ->
  getLatestError (fst (transition ctx (ADD_ERROR payload) r))
  = Some (newError payload r).
Proof.
  intros Hcap. unfold getLatestError, getErrors.
  cbn [ErrorMachine.transition fst errors].
  rewrite Array_slice_neg_skipn by assumption.
  rewrite <- skipn_map, map_app. cbn [map].
  apply last_skipn_snoc. rewrite length_app, length_map. cbn [length]. lia.
Qed.

Lemma add_error_below_capacity (ctx : ErrorMachineContext)
    (payload : CreateErrorInput) (r : Readings) :
  Z.of_nat (length (errors ctx)) < maxErrors ctx ->
  errors (fst (transition ctx (ADD_ERROR payload) r))
  = errors ctx ++ [newError payload r].
Proof.
  intros Hlen. cbn [ErrorMachine.transition fst errors].
  apply Array_slice_neg_fits; [lia | ].
  rewrite length_app. cbn [length]. lia.
Qed.

(** An [ADD_ERROR] writes one entry, made from the new record. *)
Lemma add_error_logs_once (ctx : ErrorMachineContext)
    (payload : CreateErrorInput) (r : Readings) :
  snd (transition ctx (ADD_ERROR payload) r)
  = [logErrorToConsole JSON_stringify (newError payload r)].
Proof. reflexivity. Qed.

(** A [SET_GLOBAL_ERROR] with a record writes one entry, made from it;
    with [null] it writes nothing. *)
Lemma set_global_error_logs_once (ctx : ErrorMachineContext)
    (e : AppError) (r : Readings) :
  snd (transition ctx (SET_GLOBAL_ERROR (Some e)) r)
  = [logErrorToConsole JSON_stringify e]
  /\ snd (transition ctx (SET_GLOBAL_ERROR None) r) = [].
Proof. split; reflexivity. Qed.

(** The first argument of the entry: the category in capitals between
    brackets, then the message. *)
Lemma log_entry_head (e : AppError) :
  hd "" (logErrorToConsole JSON_stringify e)
  = ("[" ++ JS.toUpperCase (ErrorType_string (type (input e))) ++ "] "
         ++ message (input e))%string.
Proof. reflexivity. Qed.

(** C5 (amended). [SET_ONLINE_STATUS false] sets the connectivity flag to
    false and changes nothing else: it adds no record. The coupling is in
    the listener of the browser's offline signal, which sends
    [SET_ONLINE_STATUS false] and then one [ADD_ERROR] of category
    network, marked recoverable, with the connectivity-lost message:
    after it, under a capacity of at least 1, the flag is false and that
    record is the newest one, appended to the former records (cut to the
    capacity). *)
Theorem offline_listener_adds_network_record (ctx : ErrorMachineContext)
    (r : Readings) :
  transition ctx (SET_ONLINE_STATUS false) r
  = ({| errors := errors ctx;
        globalError := globalError ctx;
        isOnline := false;
        maxErrors := maxErrors ctx |}, [])
  /\ (1 <= maxErrors ctx ->
      let ctx' := fst (ErrorToastProvider.handleOffline JSON_stringify ctx r) in
      let e := newError ErrorToastProvider.offlineError r in
      isOnline ctx' = false
      /\ errors ctx'
         = skipn (length (errors ctx) + 1 - Z.to_nat (maxErrors ctx))
                 (errors ctx ++ [e])
      /\ getLatestError ctx' = Some e
      /\ (Z.of_nat (length (errors ctx)) < maxErrors ctx ->
          errors ctx' = errors ctx ++ [e])
      /\ type (input e) = network
      /\ recoverable (input e) = Some true
      /\ message (input e)
         = "Você está offline. Verifique sua conexão com a internet.").
Proof.
  split; [reflexivity | ].
  intros Hcap.
  unfold ErrorToastProvider.handleOffline, ErrorToastProvider.send.
  cbn [ErrorMachine.transition fst].
  set (ctx1 := {| errors := errors ctx; globalError := globalError ctx;
                  isOnline := false; maxErrors := maxErrors ctx |}).
  repeat split.
  - cbn [errors ctx1 maxErrors].
    rewrite Array_slice_neg_skipn by assumption.
    rewrite length_app. reflexivity.
  - apply (latest_after_add ctx1). exact Hcap.
  - intros Hlen. apply (add_error_below_capacity ctx1). exact Hlen.
Qed.

End MachineProperties.

(** ** The legacy store and the two ways of adding *)

Section Deduplication.
Import Types.

Lemma ErrorType_eqb_eq (a b : ErrorType) : ErrorType_eqb a b = true <-> a = b.
Proof. destruct a, b; cbn; split; congruence. Qed.

(** [isDuplicate] holds exactly when a record the callback sees has the
    message and the category of the request and is younger than the
    window. *)
Lemma isDuplicate_true_iff (props : ErrorContext.ErrorProviderProps)
    (errors : list AppError) (request : CreateErrorInput) (now : Z) :
  ErrorContext.isDuplicate props errors request now = true
  <-> exists existing,
        In existing errors
        /\ message (input existing) = message request
        /\ type (input existing) = type request
        /\ now - timestamp existing < ErrorContext.deduplicationWindow props.
Proof.
  unfold ErrorContext.isDuplicate. rewrite existsb_exists.
  split; intros (e & Hin & H); exists e; (split; [exact Hin | ]).
  - apply andb_prop in H. destruct H as [H Ht].
    apply andb_prop in H. destruct H as [Hm Hty].
    apply String.eqb_eq in Hm. apply ErrorType_eqb_eq in Hty.
    apply Z.ltb_lt in Ht. auto.
  - destruct H as (Hm & Hty & Ht).
    apply String.eqb_eq in Hm. apply ErrorType_eqb_eq in Hty.
    apply Z.ltb_lt in Ht. rewrite Hm, Hty, Ht. reflexivity.
Qed.

Lemma isDuplicate_false (props : ErrorContext.ErrorProviderProps)
    (errors : list AppError) (request : CreateErrorInput) (now : Z) :
  (forall existing,
      In existing errors ->
      message (input existing) = message request ->
      type (input existing) = type request ->
      ErrorContext.deduplicationWindow props <= now - timestamp existing) ->
  ErrorContext.isDuplicate props errors request now = false.
Proof.
  intros H.
  destruct (ErrorContext.isDuplicate props errors request now) eqn:E;
    [ | reflexivity ].
  apply isDuplicate_true_iff in E. destruct E as (e & Hin & Hm & Hty & Ht).
  specialize (H e Hin Hm Hty). lia.
Qed.


(** The legacy store never writes to the console. *)
Lemma legacy_store_is_silent (props : ErrorContext.ErrorProviderProps)
    (st : ErrorContext.State) (request : CreateErrorInput) (now : Z)
    (random : string) (e : option AppError) :
  snd (ErrorContext.dispatchAddError props st request now random) = []
  /\ snd (ErrorContext.setGlobalError st e) = [].
Proof.
  unfold ErrorContext.dispatchAddError, ErrorContext.addError.
  destruct (ErrorContext.isDuplicate _ _ _ _); split; reflexivity.
Qed.
End Deduplication.

(** ** The hooks *)

Section Hooks.
Import Types.

Lemma useContext_outside (c : React.Context)
    (ancestors : list React.Element) :
  React.inside c ancestors = false ->
  React.useContext c ancestors = React.defaultValue c.
Proof.
  induction ancestors as [ | [c' v | ] rest IH];
    cbn [React.inside React.useContext existsb]; [reflexivity | | ].
  - destruct (React.ContextId_eqb (React.contextId c) c'); cbn [orb];
      [discriminate | exact IH].
  - exact IH.
Qed.

Lemma useContext_inside (c : React.Context)
    (ancestors : list React.Element) :
  React.inside c ancestors = true ->
  exists value,
    In (React.Provider (React.contextId c) value) ancestors
    /\ React.useContext c ancestors = JS.Object value.
Proof.
  induction ancestors as [ | [c' v | ] rest IH];
    cbn [React.inside React.useContext existsb]; [discriminate | | ].
  - destruct (React.ContextId_eqb (React.contextId c) c') eqn:E; cbn [orb].
    + intros _. exists v. split; [ | reflexivity ]. left.
      destruct (React.contextId c), c'; (reflexivity || discriminate E).
    + intros H. destruct (IH H) as (value & Hin & Hv).
      exists value. split; [right; exact Hin | exact Hv].
  - intros H. destruct (IH H) as (value & Hin & Hv).
    exists value. split; [right; exact Hin | exact Hv].
Qed.

(** C10. Called below no provider of its own context, each hook throws
    (it returns neither [null] nor [undefined]); called below one, it
    returns the value of the nearest such provider and does not throw. *)
Theorem hooks_fail_fast (ancestors : list React.Element) :
  (React.inside ErrorToastProvider.ErrorToastContext ancestors = false ->
   ErrorToastProvider.useErrorToast ancestors
   = JS.Throw "useErrorToast must be used within an ErrorToastProvider")
  /\ (React.inside ErrorToastProvider.ErrorToastContext ancestors = true ->
      exists value,
        In (React.Provider React.ErrorToastContext_id value) ancestors
        /\ ErrorToastProvider.useErrorToast ancestors
           = JS.Return (JS.Object value))
  /\ (React.inside ErrorContext.ErrorContext ancestors = false ->
      ErrorContext.useErrorContext ancestors
      = JS.Throw "useErrorContext must be used within an ErrorProvider")
  /\ (React.inside ErrorContext.ErrorContext ancestors = true ->
      exists value,
        In (React.Provider React.ErrorContext_id value) ancestors
        /\ ErrorContext.useErrorContext ancestors
           = JS.Return (JS.Object value)).
Proof.
  unfold ErrorToastProvider.useErrorToast, ErrorContext.useErrorContext.
  repeat split.
  - intros H. rewrite (useContext_outside _ _ H). reflexivity.
  - intros H. destruct (useContext_inside _ _ H) as (v & Hin & ->).
    exists v. split; [exact Hin | reflexivity].
  - intros H. rewrite (useContext_outside _ _ H). reflexivity.
  - intros H. destruct (useContext_inside _ _ H) as (v & Hin & ->).
    exists v. split; [exact Hin | reflexivity].
Qed.
End Hooks.

(** ** Concrete scenarios *)

Section Scenarios.
Import Types ErrorMachine Samples.

Example holds_B_C_records :
  map (fun e => message (input e)) (errors holds_B_C) = ["B"; "C"]
  /\ maxErrors holds_B_C = 2.
Proof. split; reflexivity. Qed.

Example log_entry_of_required_field :
  logErrorToConsole stringify (newError required_field (reading 1000 "k3x9a"))
  = ["[VALIDATION] Required field"; ""; ""; ""].
Proof. reflexivity. Qed.






(** C4, failing input: the request [{ type: 'validation', message:
    'Required field' }] given to [addError] of the legacy store, and a
    record given to its [setGlobalError]. The state machine writes one
    entry for each; the legacy store appends the record, sets the global
    error, and writes nothing. *)
Theorem legacy_store_writes_no_log_entry :
  let e := ErrorContext.appError required_field 1000 "k3x9a" in
  let st := {| ErrorContext.errors := []; ErrorContext.isOnline := true;
               ErrorContext.globalError := None |} in
  snd (transition stringify (initialContext None) (ADD_ERROR required_field)
         (reading 1000 "k3x9a"))
  = [["[VALIDATION] Required field"; ""; ""; ""]]
  /\ snd (transition stringify (initialContext None) (SET_GLOBAL_ERROR (Some e))
            (reading 1000 ""))
     = [["[VALIDATION] Required field"; ""; ""; ""]]
  /\ ErrorContext.dispatchAddError ErrorContext.defaultProps st
       required_field 1000 "k3x9a"
     = ({| ErrorContext.errors := [e]; ErrorContext.isOnline := true;
           ErrorContext.globalError := None |}, [])
  /\ ErrorContext.setGlobalError st (Some e)
     = ({| ErrorContext.errors := []; ErrorContext.isOnline := true;
           ErrorContext.globalError := Some e |}, []).
Proof. repeat split. Qed.

(** C5, counterexample: on the initial context with the flag true,
    [SET_ONLINE_STATUS false] puts the flag to false and the list of
    records is still empty: no network record was made. *)
Lemma set_online_status_adds_no_record :
  let ctx := initialContext (Some true) in
  let ctx' := fst (transition stringify ctx (SET_ONLINE_STATUS false)
                     (reading 1000 "k3x9a")) in
  isOnline ctx = true
  /\ isOnline ctx' = false
  /\ errors ctx' = []
  /\ snd (transition stringify ctx (SET_ONLINE_STATUS false)
            (reading 1000 "k3x9a")) = [].
Proof. repeat split. Qed.

Lemma offline_listener_witness :
  let ctx := initialContext (Some true) in
  let ctx' := fst (ErrorToastProvider.handleOffline stringify ctx
                     (reading 1000 "k3x9a")) in
  let e := newError ErrorToastProvider.offlineError (reading 1000 "k3x9a") in
  isOnline ctx' = false
  /\ errors ctx'
     = skipn (length (errors ctx) + 1 - Z.to_nat (maxErrors ctx))
             (errors ctx ++ [e])
  /\ getLatestError ctx' = Some e
  /\ (Z.of_nat (length (errors ctx)) < maxErrors ctx ->
      errors ctx' = errors ctx ++ [e])
  /\ type (input e) = network
  /\ recoverable (input e) = Some true
  /\ message (input e)
     = "Você está offline. Verifique sua conexão com a internet.".
Proof.
  destruct (offline_listener_adds_network_record stringify
              (initialContext (Some true)) (reading 1000 "k3x9a"))
    as [_ Hlistener].
  apply Hlistener. cbn. lia.
Defined.



Lemma remove_error_witness :
  errors (fst (transition stringify holds_B_C
                 (REMOVE_ERROR "error_1001_k3x9b") (reading 1003 "")))
  = [newError (request general "C") (reading 1002 "k3x9c")]
  /\ transition stringify holds_B_C (REMOVE_ERROR "error_7_none")
       (reading 1003 "")
     = (holds_B_C, []).
Proof.
  split.
  - destruct (remove_error_exact stringify holds_B_C "error_1001_k3x9b"
                (reading 1003 "")) as [_ [Hpresent _]].
    apply (Hpresent [] (newError (request network "B") (reading 1001 "k3x9b"))
                    [newError (request general "C") (reading 1002 "k3x9c")]).
    + reflexivity.
    + reflexivity.
    + repeat constructor; cbn; intros H;
        repeat (destruct H as [H | H]; try discriminate H); exact H.
  - destruct (remove_error_exact stringify holds_B_C "error_7_none"
                (reading 1003 "")) as [_ [_ Habsent]].
    apply Habsent. cbn. intros H.
    repeat (destruct H as [H | H]; try discriminate H). exact H.
Defined.

(** C9, counterexample: two [ADD_ERROR] events that read the same clock
    value and draw the same random suffix store two records with the same
    id. *)
Lemma same_draw_same_id :
  let events :=
    [ (ADD_ERROR (request validation "A"), reading 1000 "k3x9a");
      (ADD_ERROR (request network "B"), reading 1000 "k3x9a") ] in
  let final := fst (run stringify (initialContext None) events) in
  map id (errors final) = ["error_1000_k3x9a"; "error_1000_k3x9a"]
  /\ ~ NoDup (map id (errors final)).
Proof.
  split; [reflexivity | ].
  intros H. inversion H as [ | x l Hnot _]. apply Hnot. left. reflexivity.
Qed.

Lemma ids_unique_witness :
  NoDup (map id (errors (fst (run stringify (initialContext None)
                                three_added)))).
Proof.
  destruct (ids_unique_for_distinct_draws stringify None three_added)
    as [_ Hunique].
  apply Hunique.
  repeat constructor; cbn; intros H;
    repeat (destruct H as [H | H]; try discriminate H); exact H.
Defined.

Lemma hooks_fail_fast_witness :
  let value := {| value_error := None; value_errors := [];
                  value_globalError := None; value_isOnline := true |} in
  let below_toast_provider :=
    [React.Other; React.Provider React.ErrorToastContext_id value] in
  (exists v,
      In (React.Provider React.ErrorToastContext_id v) below_toast_provider
      /\ ErrorToastProvider.useErrorToast below_toast_provider
         = JS.Return (JS.Object v))
  /\ ErrorContext.useErrorContext below_toast_provider
     = JS.Throw "useErrorContext must be used within an ErrorProvider"
  /\ ErrorToastProvider.useErrorToast [React.Other]
     = JS.Throw "useErrorToast must be used within an ErrorToastProvider".
Proof.
  intros value below_toast_provider.
  destruct (hooks_fail_fast below_toast_provider) as [_ [Hin [Hout _]]].
  destruct (hooks_fail_fast [React.Other]) as [Hnone _].
  split; [ | split ].
  - apply Hin. reflexivity.
  - apply Hout. reflexivity.
  - apply Hnone. reflexivity.
Defined.

End Scenarios.

(** * Further properties of the state machine *)

Section MachineRuns.
Import Types ErrorMachine Runs.
Variable JSON_stringify : ContextRecord -> string.

Local Abbreviation transition := (transition JSON_stringify).
Local Abbreviation run := (run JSON_stringify).

Lemma run_step (ctx : ErrorMachineContext) (event : ErrorMachineEvent)
    (r : Readings) (rest : list (ErrorMachineEvent * Readings)) :
  run ctx ((event, r) :: rest)
  = (fst (run (fst (transition ctx event r)) rest),
     snd (transition ctx event r) ++ snd (run (fst (transition ctx event r)) rest)).
Proof.
  cbn [ErrorMachine.run].
  destruct (transition ctx event r) as [ctx' out]. cbn [fst snd].
  destruct (run ctx' rest) as [ctx'' out']. reflexivity.
Qed.

(** In the model, where the serialiser returns on every context: the
    console after a sequence of events is made of the announced records. *)
Lemma console_entries (ctx : ErrorMachineContext)
    (events : list (ErrorMachineEvent * Readings)) :
  snd (run ctx events)
  = map (logErrorToConsole JSON_stringify) (announced events).
Proof.
  revert ctx. induction events as [ | [event r] rest IH]; intros ctx.
  - reflexivity.
  - rewrite run_step. cbn [snd]. rewrite IH.
    destruct event as [payload | i | | [e | ] | b | n]; reflexivity.
Qed.



(** X4. [REMOVE_ERROR] drops every record with the id, also when several
    records share it, and keeps every other record: a record is in the
    list afterwards exactly when it was there before with another id.
    Sending the event a second time changes nothing more. *)
Theorem remove_error_drops_all_matching (ctx : ErrorMachineContext)
    (i : string) (r r' : Readings) :
  let ctx' := fst (transition ctx (REMOVE_ERROR i) r) in
  (forall e, In e (errors ctx') <-> In e (errors ctx) /\ id e <> i)
  /\ ~ In i (map id (errors ctx'))
  /\ transition ctx' (REMOVE_ERROR i) r' = (ctx', []).
Proof.
  cbn [ErrorMachine.transition fst errors].
  assert (Hiff : forall e,
             In e (filter (fun error => negb (String.eqb (id error) i)) (errors ctx))
             <-> In e (errors ctx) /\ id e <> i).
  { intros e. rewrite filter_In.
    destruct (String.eqb_spec (id e) i); cbn [negb]; intuition congruence. }
  assert (Hnot : ~ In i (map id (filter (fun error => negb (String.eqb (id error) i))
                                        (errors ctx)))).
  { intros Hin. apply in_map_iff in Hin. destruct Hin as (e & He & Hin).
    apply Hiff in Hin. tauto. }
  split; [exact Hiff | split; [exact Hnot | ] ].
  cbn [errors globalError isOnline maxErrors].
  rewrite (filter_id_absent i _ Hnot). reflexivity.
Qed.

(** *** Chronological order *)

Lemma sorted_drop_front {A : Type} (R : A -> A -> Prop) (k : nat)
    (l later : list A) :
  StronglySorted R (l ++ later) -> StronglySorted R (skipn k l ++ later).
Proof.
  revert l. induction k as [ | k IH]; intros [ | x l] H; cbn [skipn app] in *;
    try exact H.
  apply IH. inversion H; assumption.
Qed.

Lemma sorted_later {A : Type} (R : A -> A -> Prop) (l later : list A) :
  StronglySorted R (l ++ later) -> StronglySorted R later.
Proof.
  induction l as [ | x l IH]; cbn [app]; intros H; [exact H | ].
  apply IH. inversion H; assumption.
Qed.

Lemma transition_keeps_order (ctx : ErrorMachineContext)
    (event : ErrorMachineEvent) (r : Readings)
    (rest : list (ErrorMachineEvent * Readings)) :
  StronglySorted Z.le
    (map timestamp (errors ctx) ++ stamps ((event, r) :: rest)) ->
  StronglySorted Z.le
    (map timestamp (errors (fst (transition ctx event r))) ++ stamps rest).
Proof.
  destruct event as [payload | i | | g | b | n];
    cbn [ErrorMachine.transition fst errors stamps]; intros H; try exact H.
  - unfold JS.Array_slice. rewrite <- skipn_map, map_app. cbn [map].
    apply sorted_drop_front. rewrite <- app_assoc. exact H.
  - revert H. generalize (stamps rest). intros later.
    induction (errors ctx) as [ | x l IH]; cbn [filter map app]; intros H;
      [exact H | ].
    inversion H as [ | y ys Hs Hall]; subst.
    destruct (negb (String.eqb (id x) i)); [ | auto ].
    cbn [map app]. constructor; [auto | ].
    rewrite Forall_forall in *. intros z Hz. apply Hall.
    apply in_app_or in Hz. apply in_or_app.
    destruct Hz as [Hz | Hz]; [left | right; exact Hz].
    apply in_map_iff in Hz. destruct Hz as (e & <- & He).
    apply filter_In in He. apply in_map. tauto.
  - cbn [map app]. apply sorted_later in H. exact H.
Qed.

Lemma run_keeps_order (events : list (ErrorMachineEvent * Readings)) :
  forall ctx : ErrorMachineContext,
    StronglySorted Z.le (map timestamp (errors ctx) ++ stamps events) ->
    StronglySorted Z.le (map timestamp (errors (fst (run ctx events)))).
Proof.
  induction events as [ | [event r] rest IH]; intros ctx H.
  - cbn [ErrorMachine.run fst]. cbn [stamps] in H.
    rewrite app_nil_r in H. exact H.
  - rewrite run_step. cbn [fst]. apply IH.
    apply transition_keeps_order. exact H.
Qed.

(** X5. When the clock values read by the [ADD_ERROR] events of a sequence
    never decrease, the records held after the sequence are in the order of
    their timestamps, oldest first, whatever was removed, cleared or
    evicted in between. *)
Theorem records_in_chronological_order (navigator_onLine : option bool)
    (events : list (ErrorMachineEvent * Readings)) :
  StronglySorted Z.le (stamps events) ->
  StronglySorted Z.le
    (map timestamp
         (errors (fst (run (initialContext navigator_onLine) events)))).
Proof.
  intros H. apply run_keeps_order. exact H.
Qed.

(** *** What the last setter decides *)

Section Setters.
Context {V : Type}.
Variable field : ErrorMachineContext -> V.
Variable sets : ErrorMachineEvent -> option V.
Hypothesis field_after :
  forall ctx event r,
    field (fst (transition ctx event r))
    = match sets event with Some v => v | None => field ctx end.

Lemma field_untouched (events : list (ErrorMachineEvent * Readings)) :
  forall ctx : ErrorMachineContext,
    Forall (fun entry => sets (fst entry) = None) events ->
    field (fst (run ctx events)) = field ctx.
Proof.
  induction events as [ | [event r] rest IH]; intros ctx H; [reflexivity | ].
  inversion H as [ | x xs Hx Hrest]; subst. cbn [fst] in Hx.
  rewrite run_step. cbn [fst]. rewrite (IH _ Hrest), field_after, Hx.
  reflexivity.
Qed.

Lemma field_last_set (before after : list (ErrorMachineEvent * Readings))
    (event : ErrorMachineEvent) (r : Readings) (v : V) :
  forall ctx : ErrorMachineContext,
    sets event = Some v ->
    Forall (fun entry => sets (fst entry) = None) after ->
    field (fst (run ctx (before ++ (event, r) :: after))) = v.
Proof.
  induction before as [ | [ev r0] before IH]; intros ctx Hv Hafter.
  - cbn [app]. rewrite run_step. cbn [fst].
    rewrite (field_untouched _ _ Hafter), field_after, Hv. reflexivity.
  - cbn [app]. rewrite run_step. cbn [fst]. apply IH; assumption.
Qed.
End Setters.



End MachineRuns.

(** X1. For a sequence of events in which every record handed to the
    console has no context or one that [JSON.stringify] serialises, the
    console after the sequence holds one entry for each [ADD_ERROR] and
    each [SET_GLOBAL_ERROR] with a record, in the order of the events and
    made from that record alone (its third argument being the serialised
    context): it does not depend on the context the sequence starts from,
    nor on what the capacity evicted. *)
Theorem console_of_run (serialise : Types.ContextRecord -> option string)
    (ctx : ErrorMachine.ErrorMachineContext)
    (events : list (ErrorMachine.ErrorMachineEvent * Readings)) :
  forallb (Serialiser.serialisable serialise) (Runs.announced events) = true ->
  let JSON_stringify := Serialiser.returned serialise in
  let console := snd (ErrorMachine.run JSON_stringify ctx events) in
  console
  = map (ErrorMachine.logErrorToConsole JSON_stringify) (Runs.announced events)
  /\ length console = length (Runs.announced events)
  /\ (forall e c,
        In e (Runs.announced events) ->
        Types.context (Types.input e) = Some c ->
        exists s,
          serialise c = Some s
          /\ nth 2 (ErrorMachine.logErrorToConsole JSON_stringify e) EmptyString
             = (JS.newline ++ "Context: " ++ s)%string).
Proof.
  intros Hok JSON_stringify console.
  assert (H : console
              = map (ErrorMachine.logErrorToConsole JSON_stringify)
                    (Runs.announced events))
    by apply console_entries.
  split; [exact H | split ].
  - rewrite H. apply length_map.
  - intros e c Hin Hc. rewrite forallb_forall in Hok.
    specialize (Hok e Hin). unfold Serialiser.serialisable in Hok.
    rewrite Hc in Hok.
    destruct (serialise c) as [s | ] eqn:E; [ | discriminate Hok ].
    exists s. split; [reflexivity | ].
    unfold ErrorMachine.logErrorToConsole. cbn [nth]. rewrite Hc.
    unfold JSON_stringify, Serialiser.returned. rewrite E. reflexivity.
Qed.

(** * The toasts *)

Section ToastProperties.
Import Types ErrorMachine Toasts.
Variable JSON_stringify : ContextRecord -> string.
Variable onError_given : bool.

Lemma differs_false_iff (ref : option string) (i : string) :
  differs ref i = false <-> ref = Some i.
Proof.
  destruct ref as [previous | ]; cbn [differs].
  - destruct (String.eqb_spec i previous) as [-> | Hne]; cbn [negb];
      split; try reflexivity; try discriminate.
    intros [= E]. congruence.
  - split; discriminate.
Qed.

(** X7. The effect skips the record it showed last: it makes calls
    exactly when there is a latest record whose id is not the one in the
    ref, it then makes one [enqueueSnackbar] with that id as key and that
    record's message and puts the id in the ref, and run again on the same
    latest record it makes no call. (The ref holds one id only: a record
    that becomes the latest again after another was shown is shown
    again.) *)
Theorem toast_effect_skips_last_shown (latestError : option AppError)
    (ref : option string) :
  let ref' := fst (toastEffect onError_given latestError ref) in
  let calls := snd (toastEffect onError_given latestError ref) in
  toastEffect onError_given latestError ref' = (ref', [])
  /\ (calls = [] <->
      latestError = None \/ exists e, latestError = Some e /\ ref = Some (id e))
  /\ (forall e, latestError = Some e -> ref <> Some (id e) ->
        ref' = Some (id e)
        /\ exists options,
             calls = (if onError_given then [onError e] else [])
                     ++ [enqueueSnackbar (message (input e)) options]
             /\ key options = id e).
Proof.
  destruct latestError as [e | ]; cbn [toastEffect].
  - destruct (differs ref (id e)) eqn:D; cbn [fst snd].
    + split; [ | split ].
      * cbn [toastEffect differs]. rewrite String.eqb_refl. reflexivity.
      * split.
        -- destruct onError_given; discriminate.
        -- intros [H | (e' & [= <-] & H)]; [discriminate H | ].
           apply differs_false_iff in H. congruence.
      * intros e' [= <-] _. split; [reflexivity | ].
        eexists. split; reflexivity.
    + split; [ | split ].
      * cbn [toastEffect]. rewrite D. reflexivity.
      * split; [ | reflexivity ].
        intros _. right. exists e. split; [reflexivity | ].
        apply differs_false_iff. exact D.
      * intros e' [= <-] Hne. apply differs_false_iff in D. contradiction.
  - cbn [fst snd]. split; [reflexivity | split ].
    + split; [left; reflexivity | reflexivity].
    + intros e [=].
Qed.

Lemma latest_of_snoc (l : list AppError) (e : AppError) :
  last (map Some (l ++ [e])) None = Some e.
Proof. rewrite map_app. apply last_last. Qed.

(** X8. Removing the newest record shows the one before it again: when
    the list ends with [a] then [b], their ids differ and [b] is the record
    last shown, [removeError] of [b] closes the toast of [b], leaves [a]
    as latest record and enqueues a toast for [a] (calling [onError] with
    [a] first when that prop is given). *)
Theorem removing_newest_shows_previous_again (st : Inner)
    (older : list AppError) (a b : AppError) (r : Readings) :
  errors (machine st) = older ++ [a; b] ->
  id a <> id b ->
  previousErrorRef st = Some (id b) ->
  let outcome := removeError JSON_stringify onError_given st (id b) r in
  getLatestError (machine (fst (fst outcome))) = Some a
  /\ previousErrorRef (fst (fst outcome)) = Some (id a)
  /\ snd (fst outcome) = []
  /\ snd outcome
     = closeSnackbar (id b)
       :: (if onError_given then [onError a] else [])
       ++ [enqueueSnackbar (message (input a))
             {| variant := errorTypeToVariant (type (input a));
                key := id a;
                autoHideDuration :=
                  match recoverable (input a) with
                  | Some true => 5000
                  | _ => 8000
                  end;
                snack_action := action (input a) |}].
Proof.
  intros Herr Hne Href.
  unfold removeError, ErrorToastProvider.send, render.
  cbn [ErrorMachine.transition].
  assert (Hlatest :
            getLatestError
              {| errors := filter (fun error => negb (String.eqb (id error) (id b)))
                                  (errors (machine st));
                 globalError := globalError (machine st);
                 isOnline := isOnline (machine st);
                 maxErrors := maxErrors (machine st) |} = Some a).
  { unfold getLatestError, getErrors. cbn [errors]. rewrite Herr.
    replace (older ++ [a; b]) with ((older ++ [a]) ++ [b])
      by (rewrite <- app_assoc; reflexivity).
    rewrite !filter_app. cbn [filter].
    rewrite String.eqb_refl. cbn [negb].
    destruct (String.eqb_spec (id a) (id b)) as [E | _]; [contradiction | ].
    cbn [negb]. rewrite app_nil_r. apply latest_of_snoc. }
  rewrite Hlatest. cbn [toastEffect]. rewrite Href. cbn [differs].
  destruct (String.eqb_spec (id a) (id b)) as [E | _]; [contradiction | ].
  cbn [negb fst snd machine previousErrorRef].
  repeat split. exact Hlatest.
Qed.

(** In the model, where the serialiser returns on every context: what an
    [addError] leaves under a capacity of at least 1 when the new id is
    not the one last shown. *)
Lemma add_error_outcome (st : Inner) (request : CreateErrorInput)
    (r : Readings) :
  1 <= maxErrors (machine st) ->
  previousErrorRef st <> Some (id (newError request r)) ->
  let outcome := addError JSON_stringify onError_given st request r in
  let e := newError request r in
  snd (fst outcome) = [logErrorToConsole JSON_stringify e]
  /\ previousErrorRef (fst (fst outcome)) = Some (id e)
  /\ snd outcome
     = (if onError_given then [onError e] else [])
       ++ [enqueueSnackbar (message request)
             {| variant := match type request with
                           | validation => variant_warning
                           | _ => variant_error
                           end;
                key := id e;
                autoHideDuration :=
                  match recoverable request with
                  | Some true => 5000
                  | _ => 8000
                  end;
                snack_action := action request |}].
Proof.
  intros Hcap Href.
  unfold addError, ErrorToastProvider.send, render.
  pose proof (latest_after_add JSON_stringify (machine st) request r Hcap)
    as Hlatest.
  destruct (ErrorMachine.transition JSON_stringify (machine st)
              (ADD_ERROR request) r) as [ctx console] eqn:E.
  cbn [fst] in Hlatest. rewrite Hlatest. cbn [toastEffect].
  destruct (differs (previousErrorRef st) (id (newError request r))) eqn:D.
  - cbn [fst snd previousErrorRef].
    split; [ | split ].
    + apply (f_equal snd) in E. cbn [snd] in E. rewrite <- E. reflexivity.
    + reflexivity.
    + cbn [input newError message type recoverable action].
      destruct (type request); reflexivity.
  - apply differs_false_iff in D. contradiction.
Qed.

End ToastProperties.

(** X9. Under a capacity of at least 1, adding a request with no context
    or one that [JSON.stringify] serialises, the new id not being the one
    last shown, writes one entry to the console and shows one toast for
    the record: [onError] first when given, then [enqueueSnackbar] with
    the message of the request, the new id as key, the variant warning
    for a validation error and error for every other category, and
    5000 ms for a request marked recoverable, 8000 ms otherwise (also when
    the mark is absent). *)
Theorem added_record_is_shown_once
    (serialise : Types.ContextRecord -> option string) (onError_given : bool)
    (st : Toasts.Inner) (request : Types.CreateErrorInput) (r : Readings) :
  Serialiser.serialisable serialise (ErrorMachine.newError request r) = true ->
  1 <= ErrorMachine.maxErrors (Toasts.machine st) ->
  Toasts.previousErrorRef st <> Some (Types.id (ErrorMachine.newError request r)) ->
  let JSON_stringify := Serialiser.returned serialise in
  let outcome := Toasts.addError JSON_stringify onError_given st request r in
  let e := ErrorMachine.newError request r in
  snd (fst outcome) = [ErrorMachine.logErrorToConsole JSON_stringify e]
  /\ Toasts.previousErrorRef (fst (fst outcome)) = Some (Types.id e)
  /\ snd outcome
     = (if onError_given then [Toasts.onError e] else [])
       ++ [Toasts.enqueueSnackbar (Types.message request)
             {| Toasts.variant := match Types.type request with
                                  | Types.validation => Toasts.variant_warning
                                  | _ => Toasts.variant_error
                                  end;
                Toasts.key := Types.id e;
                Toasts.autoHideDuration :=
                  match Types.recoverable request with
                  | Some true => 5000
                  | _ => 8000
                  end;
                Toasts.snack_action := Types.action request |}]
  /\ (forall c,
        Types.context request = Some c ->
        exists s,
          serialise c = Some s
          /\ nth 2 (ErrorMachine.logErrorToConsole JSON_stringify e) EmptyString
             = (JS.newline ++ "Context: " ++ s)%string).
Proof.
  intros Hok Hcap Href JSON_stringify outcome e.
  destruct (add_error_outcome JSON_stringify onError_given st request r Hcap Href)
    as [Hconsole [Hshown Hcalls]].
  repeat split; try assumption.
  intros c Hc. unfold Serialiser.serialisable in Hok.
  cbn [ErrorMachine.newError Types.input] in Hok. rewrite Hc in Hok.
  destruct (serialise c) as [s | ] eqn:E; [ | discriminate Hok ].
  exists s. split; [reflexivity | ].
  unfold e, ErrorMachine.logErrorToConsole.
  cbn [nth ErrorMachine.newError Types.input]. rewrite Hc.
  unfold JSON_stringify, Serialiser.returned. rewrite E. reflexivity.
Qed.

(** X10. The toasts of the requests the factories build: those of
    [createCheckoutError], [createGeneralError] and [errorToCreateInput]
    stay 8000 ms, those of the four other factories 5000 ms, and only the
    one of [createValidationError] is a warning. *)
Theorem toasts_of_the_factories (message : string) (details : option string)
    (error : ErrorFactories.JsError) (context : option Types.ContextRecord)
    (r : Readings) :
  let shown request :=
    map (fun call =>
           match call with
           | Toasts.enqueueSnackbar m options =>
               Some (m, Toasts.variant options, Toasts.autoHideDuration options)
           | _ => None
           end)
        (snd (Toasts.toastEffect false
                (Some (ErrorMachine.newError request r)) None)) in
  shown (ErrorFactories.createNetworkError message details)
  = [Some (message, Toasts.variant_error, 5000)]
  /\ shown (ErrorFactories.createValidationError message details)
     = [Some (message, Toasts.variant_warning, 5000)]
  /\ shown (ErrorFactories.createCartError message details)
     = [Some (message, Toasts.variant_error, 5000)]
  /\ shown (ErrorFactories.createAuthError message details)
     = [Some (message, Toasts.variant_error, 5000)]
  /\ shown (ErrorFactories.createCheckoutError message details)
     = [Some (message, Toasts.variant_error, 8000)]
  /\ shown (ErrorFactories.createGeneralError message details)
     = [Some (message, Toasts.variant_error, 8000)]
  /\ shown (ErrorFactories.errorToCreateInput error context)
     = [Some (ErrorFactories.error_message error, Toasts.variant_error, 8000)].
Proof. repeat split. Qed.

(** * The listener of GraphQL errors and the toast configuration *)

Section BridgeProperties.
Import Types ErrorMachine ApolloBridge.
Variable JSON_stringify : ContextRecord -> string.
Variable toLowerCase : string -> string.

Lemma prefix_of_append (name rest : string) :
  String.prefix name (name ++ rest) = true.
Proof.
  induction name as [ | c name IH]; cbn; [destruct rest; reflexivity | ].
  destruct (ascii_dec c c) as [_ | Hne]; [exact IH | contradiction].
Qed.

Lemma includes_infix (before name after : string) :
  JSStrings.includes (before ++ name ++ after) name = true.
Proof.
  induction before as [ | c before IH].
  - cbn [String.append]. destruct (name ++ after)%string eqn:E;
      cbn [JSStrings.includes]; rewrite <- E, prefix_of_append; reflexivity.
  - cbn [String.append JSStrings.includes]. rewrite IH.
    destruct (String.prefix name _); reflexivity.
Qed.


End BridgeProperties.

(** X12. The anchor given to the snackbar provider spells the configured
    position back: for each of the six positions, the vertical part, a
    hyphen and the horizontal part are the position, and with no position
    configured the anchor is top and right. The three other settings are
    the configured ones, the defaults 3, 5000 and true where absent. *)
Theorem anchor_origin_matches_position
    (config : ToastConfiguration.PartialToastConfig) :
  let props := ToastConfiguration.snackbarProviderProps config in
  let anchor := ToastConfiguration.provider_anchorOrigin props in
  (ToastConfiguration.vertical anchor ++ "-"
   ++ ToastConfiguration.horizontal anchor)%string
  = ToastConfiguration.ToastPosition_string
      (match ToastConfiguration.given_position config with
       | Some p => p
       | None => ToastConfiguration.top_right
       end)
  /\ ToastConfiguration.maxSnack props
     = match ToastConfiguration.given_maxToasts config with
       | Some n => n
       | None => 3
       end
  /\ ToastConfiguration.provider_autoHideDuration props
     = match ToastConfiguration.given_autoHideDuration config with
       | Some n => n
       | None => 5000
       end
  /\ ToastConfiguration.preventDuplicate props
     = match ToastConfiguration.given_preventDuplicates config with
       | Some b => b
       | None => true
       end.
Proof.
  destruct config as [[[ | | | | | ] | ] duration toasts duplicates];
    repeat split; destruct duration, toasts, duplicates; reflexivity.
Qed.

(** * The error boundaries and the fallback *)

Section BoundaryProperties.
Import ErrorFactories ErrorBoundary.

(** X13. The boundary shows its fallback only once the error and the
    error info are both recorded: after [getDerivedStateFromError] alone
    [render] still returns the children; after [componentDidCatch] it
    returns the fallback with that error, that info and the online flag
    (true where there is no navigator), and one [console.error] call was
    made, after the [onError] callback when there is one; [reset] then
    brings back the initial state and the children, calling [onReset] when
    given. *)
Theorem boundary_catch_then_reset (props : ErrorBoundaryProps) (e : JsError)
    (info : ErrorInfo) (navigator_onLine : option bool) :
  let derived := getDerivedStateFromError e initialState in
  let caught := componentDidCatch props derived e info in
  let cleared := reset props (fst caught) in
  render props initialState navigator_onLine = children
  /\ render props derived navigator_onLine = children
  /\ render props (fst caught) navigator_onLine
     = fallback (fallback_given props) e info
         (match navigator_onLine with Some b => b | None => true end)
  /\ (exists args,
         snd caught
         = (if onError_given props then [call_onError e info] else [])
           ++ [call_console_error args]
         /\ nth 1 args arg_undefined = arg_string (error_message e))
  /\ fst cleared = initialState
  /\ snd cleared = (if onReset_given props then [call_onReset] else [])
  /\ render props (fst cleared) navigator_onLine = children.
Proof.
  cbn. repeat split. eexists. split; reflexivity.
Qed.

Lemma Key_eqb_eq (a b : Key) :
  a <> key_NaN -> (Key_eqb a b = true <-> a = b).
Proof.
  intros Ha. destruct a as [ | | n], b as [ | | m]; cbn; split;
    try congruence.
  - intros H. apply Nat.eqb_eq in H. congruence.
  - intros [= ->]. apply Nat.eqb_refl.
Qed.

(** With neither [undefined] nor [NaN] among the new keys, no key has
    changed exactly when the previous keys start with the new ones. *)
Lemma unchanged_iff_prefix (keys : list Key) :
  Forall (fun key => key <> key_undefined /\ key <> key_NaN) keys ->
  forall previous,
    hasResetKeyChanged keys previous = false
    <-> exists extra, previous = keys ++ extra.
Proof.
  induction 1 as [ | key keys [Hdef Hnum] _ IH]; intros previous.
  - cbn. split; [ | reflexivity ]. intros _. exists previous. reflexivity.
  - cbn [hasResetKeyChanged]. rewrite orb_false_iff, negb_false_iff.
    rewrite (Key_eqb_eq _ _ Hnum), IH. split.
    + intros [Hhd (extra & Htl)]. exists extra.
      destruct previous as [ | p previous]; cbn [hd tl] in *.
      * contradiction.
      * subst. reflexivity.
    + intros (extra & ->). cbn [hd tl app]. split; [reflexivity | ].
      exists extra. reflexivity.
Qed.

(** A [NaN] among the new keys always counts as a change. *)
Lemma NaN_key_changed (keys : list Key) :
  In key_NaN keys -> forall previous, hasResetKeyChanged keys previous = true.
Proof.
  induction keys as [ | key keys IH]; intros Hin previous; [destruct Hin | ].
  cbn [hasResetKeyChanged]. destruct Hin as [-> | Hin].
  - destruct (hd key_undefined previous); reflexivity.
  - rewrite (IH Hin). apply orb_true_r.
Qed.

(** X14. [componentDidUpdate] resets the boundary only when it holds an
    error and the props before and after both carry reset keys. Then, the
    new keys being neither [undefined] nor [NaN], it leaves the state
    alone exactly when the previous keys start with the new ones (so
    dropping keys from the end is not noticed), and resets otherwise (a
    key changed, or a key added past the end of the previous ones). With
    a [NaN] among the new keys it always resets, [NaN] being different
    from itself. *)
Theorem reset_keys_compared_in_step (props prevProps : ErrorBoundaryProps)
    (st : ErrorBoundaryState) :
  (hasError st = false \/ resetKeys props = None \/ resetKeys prevProps = None ->
   componentDidUpdate props prevProps st = (st, []))
  /\ (forall keys previous,
         hasError st = true ->
         resetKeys props = Some keys ->
         resetKeys prevProps = Some previous ->
         (Forall (fun key => key <> key_undefined /\ key <> key_NaN) keys ->
          ((exists extra, previous = keys ++ extra) ->
           componentDidUpdate props prevProps st = (st, []))
          /\ (~ (exists extra, previous = keys ++ extra) ->
              componentDidUpdate props prevProps st = reset props st))
         /\ (In key_NaN keys ->
             componentDidUpdate props prevProps st = reset props st)).
Proof.
  unfold componentDidUpdate. split.
  - intros [H | [H | H]]; rewrite H.
    + reflexivity.
    + destruct (hasError st); reflexivity.
    + destruct (hasError st), (resetKeys props); reflexivity.
  - intros keys previous He Hk Hp. rewrite He, Hk, Hp. split.
    + intros Hdef.
      pose proof (unchanged_iff_prefix keys Hdef previous) as Hiff.
      destruct (hasResetKeyChanged keys previous).
      * split; [ | reflexivity ].
        intros Hpre. apply Hiff in Hpre. discriminate Hpre.
      * split; [reflexivity | ].
        intros Hnot. exfalso. apply Hnot. apply Hiff. reflexivity.
    + intros Hnan. rewrite (NaN_key_changed keys Hnan previous). reflexivity.
Qed.

End BoundaryProperties.

Section FallbackProperties.
Import ErrorFactories.

Lemma append_empty (s : string) : (s ++ "")%string = s.
Proof. induction s as [ | c s IH]; cbn; [reflexivity | rewrite IH; reflexivity]. Qed.

(** X15. The Radix boundary renders its children until an error is
    caught and again after a retry. With an error, a fallback node that
    is truthy is rendered as it is; a falsy one ([null], [false], [0],
    the empty string, or none) gives the default fallback, which always
    has a retry button wired to [handleRetry], labelled by the customized
    label or "Tentar novamente", and the customized or default title.
    [componentDidCatch] always starts with its two [console.error] calls,
    then the capture and error callbacks that are given, in that order. *)
Theorem radix_boundary_fallback_and_retry (hostname : option string)
    (props : RadixErrorBoundary.RadixErrorBoundaryProps) (e : JsError)
    (componentStack : option string) :
  let caught := RadixErrorBoundary.getDerivedStateFromError e in
  RadixErrorBoundary.render hostname props RadixErrorBoundary.initialState
  = RadixErrorBoundary.children
  /\ (RadixErrorBoundary.truthy (RadixErrorBoundary.fallback props) = true ->
      RadixErrorBoundary.render hostname props caught
      = RadixErrorBoundary.custom_fallback (RadixErrorBoundary.fallback props))
  /\ (RadixErrorBoundary.truthy (RadixErrorBoundary.fallback props) = false ->
      exists shown,
        RadixErrorBoundary.render hostname props caught
        = RadixErrorBoundary.default_fallback shown
        /\ ErrorFallback.shown_retry shown
           = Some (match RadixErrorBoundary.fallbackProps props with
                   | Some {| RadixErrorBoundary.custom_retryLabel := Some l |} => l
                   | _ => "Tentar novamente"
                   end, ErrorFallback.handleRetry_of_boundary)
        /\ ErrorFallback.shown_title shown
           = match RadixErrorBoundary.fallbackProps props with
             | Some {| RadixErrorBoundary.custom_title := Some t |} => t
             | _ => "Algo deu errado"
             end)
  /\ RadixErrorBoundary.render hostname props
       (RadixErrorBoundary.handleRetry caught)
     = RadixErrorBoundary.children
  /\ (exists stack_arg,
         RadixErrorBoundary.componentDidCatch props e componentStack
         = [ RadixErrorBoundary.call_console_error
               [ RadixErrorBoundary.arg_string
                   "[ErrorBoundary] Rendering error caught:";
                 RadixErrorBoundary.arg_error e ];
             RadixErrorBoundary.call_console_error
               [ RadixErrorBoundary.arg_string "[ErrorBoundary] Component stack:";
                 stack_arg ] ]
           ++ (if RadixErrorBoundary.captureException_given props
               then [RadixErrorBoundary.call_captureException e componentStack
                       "radix"]
               else [])
           ++ (if RadixErrorBoundary.onError_given props
               then [RadixErrorBoundary.call_onError e componentStack]
               else [])).
Proof.
  cbn zeta. split; [reflexivity | ].
  split; [ | split; [ | split ] ].
  - intros H. unfold RadixErrorBoundary.render.
    cbn [RadixErrorBoundary.hasError RadixErrorBoundary.getDerivedStateFromError].
    rewrite H. reflexivity.
  - intros H. unfold RadixErrorBoundary.render.
    cbn [RadixErrorBoundary.hasError RadixErrorBoundary.getDerivedStateFromError].
    rewrite H. eexists. split; [reflexivity | ].
    destruct (RadixErrorBoundary.fallbackProps props)
      as [[cls details title message [label | ]] | ];
      split; try reflexivity; destruct title; reflexivity.
  - reflexivity.
  - eexists. reflexivity.
Qed.

Lemma cn_skips_falsy (before after : list ErrorFallback.ClassValue)
    (v : ErrorFallback.ClassValue) :
  ErrorFallback.Boolean v = false ->
  ErrorFallback.cn (before ++ v :: after) = ErrorFallback.cn (before ++ after).
Proof.
  intros H. unfold ErrorFallback.cn.
  rewrite !filter_app. cbn [filter]. rewrite H. reflexivity.
Qed.

(** X16. [cn] joins the non-empty strings with single spaces and skips
    every other argument wherever it stands. So the fallback's outer
    element has the base classes alone when no class name or an empty one
    is given, and the base classes, one space and the class name
    otherwise. *)
Theorem class_names_are_merged (hostname : option string)
    (props : ErrorFallback.ErrorFallbackProps) :
  (forall before after v,
      ErrorFallback.Boolean v = false ->
      ErrorFallback.cn (before ++ v :: after)
      = ErrorFallback.cn (before ++ after))
  /\ (forall a b c d,
         ErrorFallback.cn [ErrorFallback.class_string (String a b);
                           ErrorFallback.class_string (String c d)]
         = (String a b ++ " " ++ String c d)%string)
  /\ ErrorFallback.shown_className (ErrorFallback.ErrorFallback hostname props)
     = match ErrorFallback.className props with
       | Some (String c rest) =>
           (ErrorFallback.base_classes ++ " " ++ String c rest)%string
       | _ => ErrorFallback.base_classes
       end.
Proof.
  split; [exact cn_skips_falsy | split; [reflexivity | ] ].
  destruct props as [e retry [[ | c rest] | ] details title message label];
    reflexivity.
Qed.

(** X17. The details block (message and stack of the error) is shown
    exactly when there is an error and either [showDetails] is given as
    true, or it is not given and the page runs on localhost or 127.0.0.1:
    on any other host, and where there is no window, the stack is not
    shown unless asked for. When shown, the text is the message, followed
    by an empty line and the stack when the stack is a non-empty
    string. *)
Theorem details_only_in_development (hostname : option string)
    (props : ErrorFallback.ErrorFallbackProps) :
  let shown := ErrorFallback.ErrorFallback hostname props in
  (ErrorFallback.shown_details shown <> None
   <-> ErrorFallback.error props <> None
       /\ (ErrorFallback.showDetails props = Some true
           \/ (ErrorFallback.showDetails props = None
               /\ (hostname = Some "localhost" \/ hostname = Some "127.0.0.1"))))
  /\ (forall text, ErrorFallback.shown_details shown = Some text ->
        exists e,
          ErrorFallback.error props = Some e
          /\ text = match error_stack e with
                    | Some (String c rest) =>
                        (error_message e ++ JS.newline ++ JS.newline
                         ++ String c rest)%string
                    | _ => error_message e
                    end).
Proof.
  cbn zeta. unfold ErrorFallback.ErrorFallback.
  cbn [ErrorFallback.shown_details].
  assert (Hdev : ErrorFallback.isDevelopment hostname = true
                 <-> hostname = Some "localhost" \/ hostname = Some "127.0.0.1").
  { unfold ErrorFallback.isDevelopment. destruct hostname as [h | ].
    - rewrite orb_true_iff, !String.eqb_eq.
      split; intros [H | H]; (left + right); congruence.
    - split; [discriminate | intros [H | H]; discriminate H]. }
  split.
  - destruct (ErrorFallback.showDetails props) as [[ | ] | ];
      destruct (ErrorFallback.error props) as [e | ].
    + split; [ intros _; split; [discriminate | left; reflexivity]
             | discriminate ].
    + split; [ intros H; contradiction | intros [H _]; contradiction ].
    + split; [ intros H; contradiction
             | intros [_ [H | [H _]]]; discriminate H ].
    + split; [ intros H; contradiction | intros [H _]; contradiction ].
    + destruct (ErrorFallback.isDevelopment hostname) eqn:D.
      * split; [ | discriminate ].
        intros _. split; [discriminate | right; split; [reflexivity | ] ].
        apply Hdev. reflexivity.
      * split; [ intros H; contradiction | ].
        intros [_ [H | [_ H]]]; [discriminate H | ].
        apply Hdev in H. discriminate H.
    + destruct (ErrorFallback.isDevelopment hostname);
        (split; [ intros H; contradiction | intros [H _]; contradiction ]).
  - intros text H.
    destruct (match ErrorFallback.showDetails props with
              | Some b => b
              | None => ErrorFallback.isDevelopment hostname
              end); [ | discriminate H ].
    destruct (ErrorFallback.error props) as [e | ]; [ | discriminate H ].
    injection H as <-. exists e. split; [reflexivity | ].
    destruct (error_stack e) as [[ | c rest] | ]; cbn [JS.truthy];
      rewrite ?append_empty; reflexivity.
Qed.

End FallbackProperties.

(** * The legacy store *)

Section LegacyProperties.
Import Types.

(** X18. Deduplication looks at the list of the render that made the
    callback. Two calls of the same [addError] with the same request,
    where that list holds no record of that category and message, both
    append their record (there being room for two), however close in
    time; called again from the next render, whose list holds the first
    record, the request is suppressed when it comes less than the window
    after it. *)
Theorem same_render_requests_both_appended
    (props : ErrorContext.ErrorProviderProps) (errors prev : list AppError)
    (request : CreateErrorInput) (t1 t2 : Z) (random1 random2 : string) :
  (forall existing,
      In existing errors ->
      message (input existing) = message request ->
      type (input existing) = type request -> False) ->
  Z.of_nat (length prev) + 2 <= ErrorContext.maxErrors props ->
  let first := ErrorContext.addError props errors request t1 random1 prev in
  let second := ErrorContext.addError props errors request t2 random2 (fst first) in
  fst second
  = prev ++ [ErrorContext.appError request t1 random1;
             ErrorContext.appError request t2 random2]
  /\ (t2 - t1 < ErrorContext.deduplicationWindow props ->
      ErrorContext.addError props (fst first) request t2 random2 (fst first)
      = (fst first, [])).
Proof.
  intros Hnone Hroom.
  assert (Hdup : forall t, ErrorContext.isDuplicate props errors request t = false).
  { intros t. apply isDuplicate_false. intros e Hin Hm Hty.
    destruct (Hnone e Hin Hm Hty). }
  assert (Hfirst : fst (ErrorContext.addError props errors request t1 random1 prev)
                   = prev ++ [ErrorContext.appError request t1 random1]).
  { unfold ErrorContext.addError. rewrite Hdup. cbn [fst].
    apply Array_slice_neg_fits; [lia | ].
    rewrite length_app. cbn [length]. lia. }
  cbn zeta. rewrite Hfirst. split.
  - unfold ErrorContext.addError. rewrite Hdup. cbn [fst].
    rewrite Array_slice_neg_fits.
    + rewrite <- app_assoc. reflexivity.
    + lia.
    + rewrite !length_app. cbn [length]. lia.
  - intros Hclose. unfold ErrorContext.addError.
    replace (ErrorContext.isDuplicate props _ request t2) with true;
      [reflexivity | ].
    symmetry. apply isDuplicate_true_iff.
    exists (ErrorContext.appError request t1 random1).
    split; [apply in_or_app; right; left; reflexivity | ].
    repeat split. exact Hclose.
Qed.

(** X19. A deduplication window of 0 or less switches deduplication off
    as long as no held record is stamped later than the request: the
    record is appended and the list cut to the capacity, also for a
    request identical to a record of the same millisecond. *)
Theorem nonpositive_window_never_suppresses
    (props : ErrorContext.ErrorProviderProps) (errors prev : list AppError)
    (request : CreateErrorInput) (now : Z) (random : string) :
  ErrorContext.deduplicationWindow props <= 0 ->
  (forall existing, In existing errors -> timestamp existing <= now) ->
  ErrorContext.addError props errors request now random prev
  = (JS.Array_slice (- ErrorContext.maxErrors props)
       (prev ++ [ErrorContext.appError request now random]), []).
Proof.
  intros Hwin Hpast. unfold ErrorContext.addError.
  rewrite isDuplicate_false; [reflexivity | ].
  intros e Hin _ _. specialize (Hpast e Hin). lia.
Qed.


End LegacyProperties.

(** * Concrete scenarios for the further properties *)

Section FurtherScenarios.
Import Types ErrorMachine Samples.



Lemma records_in_chronological_order_witness :
  StronglySorted Z.le
    (map timestamp
         (errors (fst (run stringify (initialContext None) three_added)))).
Proof.
  apply (records_in_chronological_order stringify None three_added).
  cbn. repeat constructor; lia.
Defined.



Lemma toast_effect_skips_last_shown_witness :
  let e := newError required_field (reading 1000 "k3x9a") in
  fst (Toasts.toastEffect true (Some e) None) = Some (id e).
Proof.
  intros e.
  destruct (toast_effect_skips_last_shown true (Some e) None) as [_ [_ Hfires]].
  destruct (Hfires e) as [Href _].
  - reflexivity.
  - discriminate.
  - exact Href.
Defined.

Lemma removing_newest_shows_previous_again_witness :
  let st := {| Toasts.machine := holds_B_C;
               Toasts.previousErrorRef := Some "error_1002_k3x9c" |} in
  Toasts.previousErrorRef
    (fst (fst (Toasts.removeError stringify false st "error_1002_k3x9c"
                 (reading 1003 ""))))
  = Some "error_1001_k3x9b".
Proof.
  intros st.
  destruct (removing_newest_shows_previous_again stringify false st []
              (newError (request network "B") (reading 1001 "k3x9b"))
              (newError (request general "C") (reading 1002 "k3x9c"))
              (reading 1003 "")) as [_ [Href _]].
  - reflexivity.
  - discriminate.
  - reflexivity.
  - exact Href.
Defined.

Lemma added_record_is_shown_once_witness :
  let st := {| Toasts.machine := initialContext None;
               Toasts.previousErrorRef := None |} in
  let with_context :=
    ErrorFactories.errorToCreateInput
      {| ErrorFactories.error_message := "Test error";
         ErrorFactories.error_stack := None |} (Some 7%nat) in
  snd (fst (Toasts.addError (Serialiser.returned (fun _ => Some "{}")) false st
              with_context (reading 1000 "k3x9a")))
  = [["[GENERAL] Test error"; "";
      (JS.newline ++ "Context: {}")%string; ""]].
Proof.
  intros st with_context.
  destruct (added_record_is_shown_once (fun _ => Some "{}") false st
              with_context (reading 1000 "k3x9a")) as [Hconsole _].
  - reflexivity.
  - cbn. lia.
  - discriminate.
  - exact Hconsole.
Defined.

Lemma console_of_run_witness :
  let with_context :=
    ErrorFactories.errorToCreateInput
      {| ErrorFactories.error_message := "Test error";
         ErrorFactories.error_stack := None |} (Some 7%nat) in
  snd (run (Serialiser.returned (fun _ => Some "{}")) (initialContext None)
         (three_added ++ [(ADD_ERROR with_context, reading 1003 "k3x9d");
                          (CLEAR_ERRORS, reading 1004 "")]))
  = [ ["[VALIDATION] A"; ""; ""; ""]; ["[NETWORK] B"; ""; ""; ""];
      ["[GENERAL] C"; ""; ""; ""];
      ["[GENERAL] Test error"; ""; (JS.newline ++ "Context: {}")%string; ""] ].
Proof.
  intros with_context.
  destruct (console_of_run (fun _ => Some "{}") (initialContext None)
              (three_added ++ [(ADD_ERROR with_context, reading 1003 "k3x9d");
                               (CLEAR_ERRORS, reading 1004 "")]))
    as [Hconsole _].
  - reflexivity.
  - exact Hconsole.
Defined.


Lemma reset_keys_compared_in_step_witness :
  let failed := {| ErrorBoundary.hasError := true;
                   ErrorBoundary.error :=
                     Some {| ErrorFactories.error_message := "Test error";
                             ErrorFactories.error_stack := None |};
                   ErrorBoundary.errorInfo :=
                     Some {| ErrorBoundary.componentStack := None |} |} in
  let props keys := {| ErrorBoundary.fallback_given := false;
                       ErrorBoundary.onError_given := false;
                       ErrorBoundary.onReset_given := true;
                       ErrorBoundary.resetKeys := Some keys |} in
  ErrorBoundary.componentDidUpdate
    (props [ErrorBoundary.key_value 1])
    (props [ErrorBoundary.key_value 1; ErrorBoundary.key_value 2]) failed
  = (failed, [])
  /\ ErrorBoundary.componentDidUpdate
       (props [ErrorBoundary.key_value 1; ErrorBoundary.key_value 2])
       (props [ErrorBoundary.key_value 1]) failed
     = (ErrorBoundary.initialState, [ErrorBoundary.call_onReset])
  /\ ErrorBoundary.componentDidUpdate
       (props [ErrorBoundary.key_NaN]) (props [ErrorBoundary.key_NaN]) failed
     = (ErrorBoundary.initialState, [ErrorBoundary.call_onReset]).
Proof.
  intros failed props. split; [ | split ].
  - destruct (reset_keys_compared_in_step
                (props [ErrorBoundary.key_value 1])
                (props [ErrorBoundary.key_value 1; ErrorBoundary.key_value 2])
                failed) as [_ Hkeys].
    destruct (Hkeys [ErrorBoundary.key_value 1]
                    [ErrorBoundary.key_value 1; ErrorBoundary.key_value 2])
      as [Hdefined _].
    + reflexivity.
    + reflexivity.
    + reflexivity.
    + destruct Hdefined as [Hsame _].
      * repeat constructor; discriminate.
      * apply Hsame. exists [ErrorBoundary.key_value 2]. reflexivity.
  - destruct (reset_keys_compared_in_step
                (props [ErrorBoundary.key_value 1; ErrorBoundary.key_value 2])
                (props [ErrorBoundary.key_value 1])
                failed) as [_ Hkeys].
    destruct (Hkeys [ErrorBoundary.key_value 1; ErrorBoundary.key_value 2]
                    [ErrorBoundary.key_value 1])
      as [Hdefined _].
    + reflexivity.
    + reflexivity.
    + reflexivity.
    + destruct Hdefined as [_ Hchanged].
      * repeat constructor; discriminate.
      * apply Hchanged. intros [extra H]. discriminate H.
  - destruct (reset_keys_compared_in_step
                (props [ErrorBoundary.key_NaN]) (props [ErrorBoundary.key_NaN])
                failed) as [_ Hkeys].
    destruct (Hkeys [ErrorBoundary.key_NaN] [ErrorBoundary.key_NaN])
      as [_ Hnan].
    + reflexivity.
    + reflexivity.
    + reflexivity.
    + apply Hnan. left. reflexivity.
Defined.

Lemma radix_boundary_fallback_and_retry_witness :
  let props := {| RadixErrorBoundary.fallback := RadixErrorBoundary.node_null;
                  RadixErrorBoundary.fallbackProps := None;
                  RadixErrorBoundary.onError_given := false;
                  RadixErrorBoundary.captureException_given := true |} in
  let e := {| ErrorFactories.error_message := "Test error";
              ErrorFactories.error_stack := None |} in
  exists shown,
    RadixErrorBoundary.render (Some "example.com") props
      (RadixErrorBoundary.getDerivedStateFromError e)
    = RadixErrorBoundary.default_fallback shown
    /\ ErrorFallback.shown_retry shown
       = Some ("Tentar novamente", ErrorFallback.handleRetry_of_boundary)
    /\ ErrorFallback.shown_title shown = "Algo deu errado".
Proof.
  intros props e.
  destruct (radix_boundary_fallback_and_retry (Some "example.com") props e None)
    as [_ [_ [Hdefault _]]].
  apply Hdefault. reflexivity.
Defined.

Lemma class_names_are_merged_witness :
  ErrorFallback.cn [ErrorFallback.class_string "a"; ErrorFallback.class_false;
                    ErrorFallback.class_string "b"]
  = ErrorFallback.cn [ErrorFallback.class_string "a";
                      ErrorFallback.class_string "b"].
Proof.
  destruct (class_names_are_merged None
              {| ErrorFallback.error := None; ErrorFallback.onRetry := None;
                 ErrorFallback.className := None;
                 ErrorFallback.showDetails := None;
                 ErrorFallback.title := None; ErrorFallback.message := None;
                 ErrorFallback.retryLabel := None |}) as [Hskip _].
  apply (Hskip [ErrorFallback.class_string "a"]
               [ErrorFallback.class_string "b"] ErrorFallback.class_false).
  reflexivity.
Defined.

Lemma details_only_in_development_witness :
  let props := {| ErrorFallback.error :=
                    Some {| ErrorFactories.error_message := "Test error message";
                            ErrorFactories.error_stack := Some "at render" |};
                  ErrorFallback.onRetry := None;
                  ErrorFallback.className := None;
                  ErrorFallback.showDetails := None;
                  ErrorFallback.title := None; ErrorFallback.message := None;
                  ErrorFallback.retryLabel := None |} in
  ErrorFallback.shown_details (ErrorFallback.ErrorFallback (Some "localhost") props)
  <> None
  /\ ~ (ErrorFallback.shown_details
          (ErrorFallback.ErrorFallback (Some "shop.example.com") props) <> None).
Proof.
  intros props. split.
  - destruct (details_only_in_development (Some "localhost") props) as [Hiff _].
    apply Hiff. split; [discriminate | ].
    right. split; [reflexivity | left; reflexivity].
  - destruct (details_only_in_development (Some "shop.example.com") props)
      as [Hiff _].
    intros H. apply Hiff in H. destruct H as [_ [H | [_ [H | H]]]];
      discriminate H.
Defined.

Lemma same_render_requests_both_appended_witness :
  fst (ErrorContext.addError ErrorContext.defaultProps [] required_field 1001
         "k3x9b"
         (fst (ErrorContext.addError ErrorContext.defaultProps [] required_field
                 1000 "k3x9a" [])))
  = [] ++ [ErrorContext.appError required_field 1000 "k3x9a";
           ErrorContext.appError required_field 1001 "k3x9b"].
Proof.
  destruct (same_render_requests_both_appended ErrorContext.defaultProps [] []
              required_field 1000 1001 "k3x9a" "k3x9b") as [Hboth _].
  - intros existing [ ].
  - cbn. lia.
  - exact Hboth.
Defined.

Lemma nonpositive_window_never_suppresses_witness :
  let props := {| ErrorContext.maxErrors := 50;
                  ErrorContext.deduplicationWindow := 0 |} in
  let held := [ErrorContext.appError required_field 1000 "k3x9a"] in
  ErrorContext.addError props held required_field 1000 "k3x9b" held
  = (JS.Array_slice (- 50)
       (held ++ [ErrorContext.appError required_field 1000 "k3x9b"]), []).
Proof.
  intros props held.
  apply (nonpositive_window_never_suppresses props held held required_field
           1000 "k3x9b").
  - cbn. lia.
  - intros existing [<- | [ ]]. cbn. lia.
Defined.


End FurtherScenarios.
